(** * MR01 probabilistic micropayments: the bank of [mr01.py]

    A shallow embedding of [src/mr01.py] (Python 2) and the properties of its
    check evaluation and bank ledger.

    Conventions of the embedding.
    - Python [int]/[long] values are [Z] (unbounded, no wrap-around).
    - Python 2 [str] values are byte strings: Rocq [string].
    - Python [float] values are IEEE-754 binary64 numbers: [spec_float] of
      the Standard Library with [prec = 53] and [emax = 1024].
    - An exception is a value of [Exception]; a computation that can raise
      returns a [result]; a method of [Bank] is a state transformer that
      returns the ledger it leaves behind {e also when it raises}, since a
      Python exception does not roll back earlier writes to [self.users].
    - The VRF ([vrf.vrf_fullverify]) and the hash ([hashlib.sha256]) are
      external: they are the variables of [Section MR01]; what a wallet uses
      of the VRF (key derivation, proving) is the class [VrfKeys]. *)

From Stdlib Require Import ZArith String Ascii List Lia Bool.
From Stdlib Require SpecFloat.
From stdpp Require Import gmap strings list pretty.

Local Open Scope string_scope.
Local Open Scope Z_scope.

(** ** Exceptions and results *)

Inductive Exception : Type :=
  | ErrUnknownSender
  | ErrInvalidCoinInterval
  | ErrNotPayable
  | ErrNotEnoughFunds
  | ErrAlreadyProcessed
  | ErrDoubleSpend
  | AssertionError
  | KeyError
  | TypeError
  | ValueError
  | OverflowError
  | ZeroDivisionError
  | ExternalError.  (* whatever the VRF or the hash raises *)

Inductive result (A : Type) : Type :=
  | Ok (a : A)
  | Raise (e : Exception).
Arguments Ok {A} a.
Arguments Raise {A} e.

Definition is_Ok {A} (r : result A) : Prop :=
  match r with Ok _ => True | Raise _ => False end.

Definition rbind {A B} (r : result A) (k : A -> result B) : result B :=
  match r with
  | Ok a => k a
  | Raise e => Raise e
  end.

(** A call into an external library: its value, or its own exception. *)
Definition external {A} (o : option A) : result A :=
  match o with
  | Some a => Ok a
  | None => Raise ExternalError
  end.

Notation "'let!' x := c 'in' k" := (rbind c (fun x => k))
  (at level 10, x name, c at level 200, k at level 200).

(** ** Hexadecimal codecs: [str.encode("hex")], [str.decode("hex")], [int(s, 16)] *)

Module Hex.

Definition digit_of (n : N) : ascii :=
  if (n <? 10)%N then ascii_of_N (48 + n) else ascii_of_N (87 + n).

Definition digit_val (c : ascii) : option Z :=
  let n := N_of_ascii c in
  if ((48 <=? n) && (n <=? 57))%N then Some (Z.of_N (n - 48))
  else if ((97 <=? n) && (n <=? 102))%N then Some (Z.of_N (n - 87))
  else if ((65 <=? n) && (n <=? 70))%N then Some (Z.of_N (n - 55))
  else None.

(** [s.encode("hex")]: two lower-case digits per byte, high nibble first. *)
Fixpoint encode (s : string) : string :=
  match s with
  | EmptyString => EmptyString
  | String c s' =>
      let n := N_of_ascii c in
      String (digit_of (n / 16)) (String (digit_of (n mod 16)) (encode s'))
  end.

(** [s.decode("hex")]: [TypeError] on an odd length or a non-digit. *)
Fixpoint decode (s : string) : result string :=
  match s with
  | EmptyString => Ok EmptyString
  | String _ EmptyString => Raise TypeError
  | String h (String l s') =>
      match digit_val h, digit_val l with
      | Some a, Some b =>
          let! rest := decode s' in
          Ok (String (ascii_of_N (Z.to_N (16 * a + b))) rest)
      | _, _ => Raise TypeError
      end
  end.

Fixpoint int16_aux (acc : Z) (s : string) : result Z :=
  match s with
  | EmptyString => Ok acc
  | String c s' =>
      match digit_val c with
      | Some d => int16_aux (16 * acc + d) s'
      | None => Raise ValueError
      end
  end.

(** [int(s, 16)] on a non-empty string of hexadecimal digits, which is all
    [evaluate] passes to it (the output of [encode]); the sign, prefix,
    and surrounding white space Python also accepts are not modelled and
    give [ValueError] here. *)
Definition int16 (s : string) : result Z :=
  match s with
  | EmptyString => Raise ValueError
  | _ => int16_aux 0 s
  end.

(** The big-endian value of a byte string. *)
Fixpoint be_value_aux (acc : Z) (s : string) : Z :=
  match s with
  | EmptyString => acc
  | String c s' => be_value_aux (256 * acc + Z.of_N (N_of_ascii c)) s'
  end.

Definition be_value (s : string) : Z := be_value_aux 0 s.

End Hex.

(** ** Floats: the three operations [calculate_payment] uses *)

Module Float.

Definition prec : Z := 53.
Definition emax : Z := 1024.

Definition float := SpecFloat.spec_float.

(** [float(n)] for an integer [n]: nearest double, ties to even;
    [OverflowError] when [n] is too large for a double. *)
Definition of_int (n : Z) : result float :=
  match SpecFloat.binary_normalize prec emax n 0 false with
  | SpecFloat.S754_infinity _ => Raise OverflowError
  | f => Ok f
  end.

(** [x / y] on floats: [ZeroDivisionError] on a zero divisor. *)
Definition div (x y : float) : result float :=
  match y with
  | SpecFloat.S754_zero _ => Raise ZeroDivisionError
  | _ => Ok (SpecFloat.SFdiv prec emax x y)
  end.

Definition mul (x y : float) : float := SpecFloat.SFmul prec emax x y.

(** [n < f] for an integer [n] and a float [f]; Python compares the two
    exactly, without converting [n] to a float. *)
Definition int_lt (n : Z) (f : float) : bool :=
  match f with
  | SpecFloat.S754_nan => false
  | SpecFloat.S754_infinity s => negb s
  | SpecFloat.S754_zero _ => n <? 0
  | SpecFloat.S754_finite s m e =>
      let v := if s then Z.neg m else Z.pos m in
      if 0 <=? e then n <? v * 2 ^ e else n * 2 ^ (- e) <? v
  end.

End Float.

(** ** Transaction *)

Definition MP : Z := 10.

Record Transaction : Type := mkTransaction {
  sn : Z;
  amount : Z;
  sender_key : string;
  receiver_key : string;
  timestamp : string
}.

(** [Transaction.__init__]; [ts] is the value of [int(timestamp)]. *)
Definition Transaction_init (sn_ amount_ : Z) (sender_key_ receiver_key_ : string)
    (ts : Z) : result Transaction :=
  let self := {| sn := sn_; amount := amount_; sender_key := sender_key_;
                 receiver_key := receiver_key_; timestamp := pretty ts |} in
  if negb (sn_ >? 0) then Raise AssertionError
  else if negb (amount_ >? 0) then Raise AssertionError
  else if negb (sn_ >=? amount_) then Raise AssertionError
  else Ok self.

(** A transaction object is one its constructor returned. *)
Definition Constructed (tx : Transaction) : Prop :=
  exists sn_ amount_ sk rk ts, Transaction_init sn_ amount_ sk rk ts = Ok tx.

(** [Transaction.__eq__] *)
Definition tx_eq (self other : Transaction) : bool :=
  (sn self =? sn other)
  && (amount self =? amount other)
  && String.eqb (sender_key self) (sender_key other)
  && String.eqb (receiver_key self) (receiver_key other)
  && String.eqb (timestamp self) (timestamp other).

(** The string [msg] hashes. *)
Definition msg_text (self : Transaction) : string :=
  "sn=" ++ pretty (sn self) ++ ";" ++
  "amt=" ++ pretty (amount self) ++ ";" ++
  "r=" ++ receiver_key self ++ ";" ++
  "t=" ++ timestamp self.

(** [Transaction.calculate_payment] *)
Definition calculate_payment (MP_ amount_ : Z) (attempt_hex : string) : result Z :=
  if MP_ =? 0 then Raise ZeroDivisionError else
  let amount_paid := (amount_ / MP_) * MP_ in
  let remaining_amount := amount_ mod MP_ in
  let! fMP := Float.of_int MP_ in
  let! frem := Float.of_int remaining_amount in
  let! prob := Float.div frem fMP in
  let! two512 := Float.of_int (2 ^ 512) in
  let difficulty_target := Float.mul two512 prob in
  let! attempt := Hex.int16 attempt_hex in
  if Float.int_lt attempt difficulty_target
  then Ok (amount_paid + MP_)
  else Ok amount_paid.

(** [Bank.intersection_exists] *)
Definition intersection_exists (tx1 tx2 : Transaction) : bool :=
  let interval1 := (sn tx1 - amount tx1 + 1, sn tx1) in
  let interval2 := (sn tx2 - amount tx2 + 1, sn tx2) in
  let '(fst_, snd_) :=
    if fst interval1 <=? fst interval2
    then (interval1, interval2)
    else (interval2, interval1) in
  (fst fst_ <=? fst snd_) && (fst snd_ <=? snd fst_).

(** ** The ledger *)

(** A history entry: [(tx, sender_sig, receiver_sig)]. *)
Definition HistoryEntry : Type := Transaction * string * string.

(** The [history] dict as the list of its items in iteration order, which
    the model takes to be insertion order: a key is overwritten in place, a
    new key goes last. (Python 2 iterates a dict in an order of its own; the
    order only decides which of several intersecting checks
    [find_shared_sn_subrange] returns.) *)
Fixpoint dict_set {V : Type} (k : Z) (v : V) (d : list (Z * V)) : list (Z * V) :=
  match d with
  | [] => [(k, v)]
  | (k', v') :: d' =>
      if k' =? k then (k, v) :: d' else (k', v') :: dict_set k v d'
  end.

Record UserRecord : Type := mkUserRecord {
  total_received : Z;
  balance : Z;
  history : list (Z * HistoryEntry)
}.

Record Bank : Type := mkBank {
  users : gmap string UserRecord
}.

(** [Bank.__init__] *)
Definition Bank_init : Bank := {| users := ∅ |}.

(** The transactions of a history, in iteration order ([history.values()]). *)
Definition history_txs (h : list (Z * HistoryEntry)) : list Transaction :=
  map (fun kv => fst (fst (snd kv))) h.

(** ** Methods as state transformers that may raise *)

Definition BankM (A : Type) : Type := Bank -> Bank * result A.

Definition ret {A} (a : A) : BankM A := fun self => (self, Ok a).

Definition raise {A} (e : Exception) : BankM A := fun self => (self, Raise e).

Definition lift {A} (r : result A) : BankM A := fun self => (self, r).

Definition bind {A B} (m : BankM A) (k : A -> BankM B) : BankM B :=
  fun self =>
    match m self with
    | (self', Ok a) => k a self'
    | (self', Raise e) => (self', Raise e)
    end.

Notation "'do!' x := c 'in' k" := (bind c (fun x => k))
  (at level 10, x name, c at level 200, k at level 200).

(** [self.users] *)
Definition get_users : BankM (gmap string UserRecord) :=
  fun self => (self, Ok (users self)).

(** [self.users[k]] *)
Definition get_user (k : string) : BankM UserRecord :=
  fun self =>
    match users self !! k with
    | Some u => (self, Ok u)
    | None => (self, Raise KeyError)
    end.

(** [self.users[k] = u] *)
Definition set_user (k : string) (u : UserRecord) : BankM unit :=
  fun self => ({| users := <[k := u]> (users self) |}, Ok tt).

(** [Bank.user_balance] *)
Definition user_balance (user_key : string) : BankM Z :=
  do! us := get_users in
  match us !! user_key with
  | None => ret 0
  | Some _ =>
      do! u := get_user user_key in
      ret (balance u)
  end.

(** [Bank.ensure_user_exists] *)
Definition ensure_user_exists (user_key : string) : BankM unit :=
  do! us := get_users in
  match us !! user_key with
  | None =>
      set_user user_key {| total_received := 0; balance := 0; history := [] |}
  | Some _ => ret tt
  end.

(** The loop of [find_shared_sn_subrange]. *)
Fixpoint first_intersecting (tx : Transaction) (values : list Transaction)
    : option Transaction :=
  match values with
  | [] => None
  | user_tx :: rest =>
      if intersection_exists tx user_tx then Some user_tx
      else first_intersecting tx rest
  end.

(** [Bank.find_shared_sn_subrange] *)
Definition find_shared_sn_subrange (tx : Transaction) : BankM (option Transaction) :=
  do! u := get_user (sender_key tx) in
  ret (first_intersecting tx (history_txs (history u))).

(** [Bank.subtract_balance] *)
Definition subtract_balance (tx : Transaction) (amount_paid : Z)
    (sender_sig receiver_sig : string) : BankM unit :=
  do! u := get_user (sender_key tx) in
  do! _ := set_user (sender_key tx)
             {| total_received := total_received u;
                balance := balance u - amount_paid;
                history := history u |} in
  do! u := get_user (sender_key tx) in
  set_user (sender_key tx)
    {| total_received := total_received u;
       balance := balance u;
       history := dict_set (sn tx) (tx, sender_sig, receiver_sig) (history u) |}.

(** [Bank.add_balance] *)
Definition add_balance (user_key : string) (amount_ : Z) : BankM unit :=
  do! _ := ensure_user_exists user_key in
  do! u := get_user user_key in
  do! _ := set_user user_key
             {| total_received := total_received u;
                balance := balance u + amount_;
                history := history u |} in
  do! u := get_user user_key in
  set_user user_key
    {| total_received := total_received u + amount_;
       balance := balance u;
       history := history u |}.

(** [Bank.deposit] *)
Definition deposit (user_key : string) (amount_ : Z) : BankM unit :=
  add_balance user_key amount_.

(** ** Vocabulary of the properties *)

(** The coin interval [(sn - amount, sn]] of a check. *)
Definition in_interval (c : Z) (tx : Transaction) : Prop :=
  sn tx - amount tx < c <= sn tx.

Definition interval_lo (tx : Transaction) : Z := sn tx - amount tx + 1.
Definition interval_hi (tx : Transaction) : Z := sn tx.

Definition share_coin (tx1 tx2 : Transaction) : Prop :=
  exists c, in_interval c tx1 /\ in_interval c tx2.

Definition pairwise_disjoint (txs : list Transaction) : Prop :=
  forall (i j : nat) (t1 t2 : Transaction),
    i <> j -> txs !! i = Some t1 -> txs !! j = Some t2 -> ~ share_coin t1 t2.

(** A property of every record of the ledger. *)
Definition every_user (P : UserRecord -> Prop) (b : Bank) : Prop :=
  forall (k : string) (u : UserRecord), users b !! k = Some u -> P u.

(** Every user's stored checks claim pairwise disjoint coin intervals. *)
Definition histories_disjoint (b : Bank) : Prop :=
  every_user (fun u => pairwise_disjoint (history_txs (history u))) b.

(** The [history] dict has one entry per key, filed under the check's [sn]. *)
Definition history_keyed (b : Bank) : Prop :=
  every_user (fun u =>
    NoDup (map fst (history u))
    /\ Forall (fun kv => fst kv = sn (fst (fst (snd kv)))) (history u)) b.

Definition balances_nonneg (b : Bank) : Prop :=
  every_user (fun u => 0 <= balance u) b.

(** The record [ensure_user_exists] creates. *)
Definition new_user : UserRecord :=
  {| total_received := 0; balance := 0; history := [] |}.

(** The record of [k], as [add_balance] finds it after [ensure_user_exists]. *)
Definition user_or_new (b : Bank) (k : string) : UserRecord :=
  default new_user (users b !! k).

Definition credit (a : Z) (u : UserRecord) : UserRecord :=
  {| total_received := total_received u + a;
     balance := balance u + a;
     history := history u |}.

Definition debit (tx : Transaction) (paid : Z) (sender_sig receiver_sig : string)
    (u : UserRecord) : UserRecord :=
  {| total_received := total_received u;
     balance := balance u - paid;
     history := dict_set (sn tx) (tx, sender_sig, receiver_sig) (history u) |}.

(** The ledger a committed payment leaves behind. *)
Definition committed (tx : Transaction) (paid : Z) (sender_sig receiver_sig : string)
    (b : Bank) (u : UserRecord) : Bank :=
  let b1 := {| users := <[sender_key tx := debit tx paid sender_sig receiver_sig u]>
                          (users b) |} in
  {| users := <[receiver_key tx := credit paid (user_or_new b1 (receiver_key tx))]>
                (users b1) |}.

(** The payable amount in the words of the specification: the threshold
    [(amount mod M) * 2^512 / M] is exact, [X] wins strictly below it. *)
Definition payable_exact (M amount_ X : Z) : Z :=
  (amount_ / M) * M + (if X * M <? (amount_ mod M) * 2 ^ 512 then M else 0).

(** The double nearest to [r / 10], as [(m, e)] with value [m * 2^e]. *)
Definition tenth_double (r : Z) : Z * Z :=
  match r with
  | 1 => (3602879701896397, -55)
  | 2 => (3602879701896397, -54)
  | 3 => (5404319552844595, -54)
  | 4 => (3602879701896397, -53)
  | 5 => (1, -1)
  | 6 => (5404319552844595, -53)
  | 7 => (3152519739159347, -52)
  | 8 => (3602879701896397, -52)
  | 9 => (8106479329266893, -53)
  | _ => (0, 0)
  end.

(** [2^512 * fl(r / 10)], an integer. *)
Definition float_threshold (r : Z) : Z :=
  fst (tenth_double r) * 2 ^ (512 + snd (tenth_double r)).

(** The payable amount with the threshold the doubles give. *)
Definition payable_float (amount_ X : Z) : Z :=
  (amount_ / MP) * MP + (if X <? float_threshold (amount_ mod MP) then MP else 0).

(** ** Wallet *)

Module Wallet.

Record t : Type := mk {
  total_received : Z;
  sn : Z;
  priv_key : string;
  amount : Z
}.

End Wallet.

(** A method of [Wallet] as a state transformer that may raise; as for the
    bank, the wallet it returns is the one it leaves behind, also when it
    raises. *)
Definition WalletM (A : Type) : Type := Wallet.t -> Wallet.t * result A.

Definition wret {A} (a : A) : WalletM A := fun self => (self, Ok a).

Definition wraise {A} (e : Exception) : WalletM A := fun self => (self, Raise e).

Definition wlift {A} (r : result A) : WalletM A := fun self => (self, r).

Definition wbind {A B} (m : WalletM A) (k : A -> WalletM B) : WalletM B :=
  fun self =>
    match m self with
    | (self', Ok a) => k a self'
    | (self', Raise e) => (self', Raise e)
    end.

Notation "'wdo!' x := c 'in' k" := (wbind c (fun x => k))
  (at level 10, x name, c at level 200, k at level 200).

(** [self] *)
Definition wget : WalletM Wallet.t := fun self => (self, Ok self).

(** [self.sn += n] *)
Definition add_sn (n : Z) : WalletM unit :=
  fun self =>
    ({| Wallet.total_received := Wallet.total_received self;
        Wallet.sn := Wallet.sn self + n;
        Wallet.priv_key := Wallet.priv_key self;
        Wallet.amount := Wallet.amount self |}, Ok tt).

(** [self.amount -= n] *)
Definition sub_amount (n : Z) : WalletM unit :=
  fun self =>
    ({| Wallet.total_received := Wallet.total_received self;
        Wallet.sn := Wallet.sn self;
        Wallet.priv_key := Wallet.priv_key self;
        Wallet.amount := Wallet.amount self - n |}, Ok tt).

(** [Wallet.__init__] *)
Definition Wallet_init (priv_key_ : string) (amount_ : Z) : result Wallet.t :=
  let! sk := Hex.decode priv_key_ in
  Ok {| Wallet.total_received := 0; Wallet.sn := 0; Wallet.priv_key := sk;
        Wallet.amount := amount_ |}.

(** [Wallet.create]; [sk] is the 32 bytes [os.urandom(32)] returned. *)
Definition Wallet_create (sk : string) (amount_ : Z) : result Wallet.t :=
  let hex_sk := Hex.encode sk in
  Wallet_init hex_sk amount_.

(** What a wallet uses of the external module [vrf]: the points of its
    curve; [vrf.vrf_prove(sk, message)], the proof; [vrf.sk_to_privpub(sk)], a
    secret scalar and the public point; [vrf.ec2osp(point)], the bytes of a
    point. Each is [None] when it raises. *)
Class VrfKeys : Type := {
  ECPoint : Type;
  vrf_prove : string -> string -> option string;
  sk_to_privpub : string -> option (Z * ECPoint);
  ec2osp : ECPoint -> option string
}.

(** The coins a check claims, as a set. *)
Definition coins (tx : Transaction) : gset Z :=
  list_to_set (seqZ (sn tx - amount tx + 1) (amount tx)).

(** A string without a semicolon. *)
Fixpoint semicolon_free (s : string) : Prop :=
  match s with
  | EmptyString => True
  | String c s' => c <> ";"%char /\ semicolon_free s'
  end.

(** The sum of all balances of the ledger. *)
Definition total_balance (b : Bank) : Z :=
  map_fold (fun _ u acc => balance u + acc) 0 (users b).

(** A property of every record of the ledger, which may mention its key. *)
Definition every_record (P : string -> UserRecord -> Prop) (b : Bank) : Prop :=
  forall (k : string) (u : UserRecord), users b !! k = Some u -> P k u.

(** ** A stand-in hash and VRF, to run the bank on concrete calls

    The "hash" is the hex encoding of its input; a "proof" is valid when it is
    not empty, and its output is 64 copies of the proof's first byte, so the
    receiver's proof decides the lottery. *)
Definition toy_H (s : string) : option string := Some (Hex.encode s).

Fixpoint replicate_byte (n : nat) (c : ascii) : string :=
  match n with
  | O => EmptyString
  | S n' => String c (replicate_byte n' c)
  end.

Definition toy_vrf (pk proof message : string) : option string :=
  match proof with
  | EmptyString => None
  | String c _ => Some (replicate_byte 64 c)
  end.

Definition byte (n : N) : ascii := ascii_of_N n.

(** A proof that wins every lottery with a non-zero residue, and one that
    loses every lottery. *)
Definition sig_hit : string := String (byte 0) EmptyString.
Definition sig_miss : string := String (byte 255) EmptyString.

Definition alice : string := "aa".
Definition bob : string := "bb".
Definition carol : string := "cc".

(** Alice pays Bob coin 1; Alice pays Carol coins 1 to 3; Alice pays Bob
    coin 2; Alice pays Bob coins 1 to 10. *)
Definition tx_a1 : Transaction :=
  {| sn := 1; amount := 1; sender_key := alice; receiver_key := bob;
     timestamp := "1700009006" |}.
Definition tx_a3 : Transaction :=
  {| sn := 3; amount := 3; sender_key := alice; receiver_key := carol;
     timestamp := "1700009007" |}.
Definition tx_a2 : Transaction :=
  {| sn := 2; amount := 1; sender_key := alice; receiver_key := bob;
     timestamp := "1700009006" |}.
Definition tx_a10 : Transaction :=
  {| sn := 10; amount := 10; sender_key := alice; receiver_key := bob;
     timestamp := "1700009006" |}.

(** The ledger after [deposit(alice, 15)] and the payment of [tx_a1], which
    won the lottery; the ledger after [deposit(alice, 9)]. *)
Definition bank_a1 : Bank :=
  {| users :=
       <[alice := {| total_received := 15; balance := 5;
                     history := [(1, (tx_a1, sig_hit, sig_hit))] |}]>
         (<[bob := {| total_received := 10; balance := 10; history := [] |}]> ∅) |}.

Definition bank_a9 : Bank :=
  {| users := <[alice := {| total_received := 9; balance := 9; history := [] |}]> ∅ |}.

(** A VRF output of 64 zero bytes: the integer [0]. *)
Definition beta_zero : string := replicate_byte 64 (byte 0).

(** The 64 bytes [19 99 ... 99 9a]: the integer [2^512 / 10 + 1], the
    least one above the exact threshold of a one-coin check. *)
Definition beta_above_tenth : string :=
  String (byte 25) (replicate_byte 62 (byte 153) ++ String (byte 154) EmptyString).

(** A stand-in for the rest of the VRF: the public point of a secret key is
    the key itself, its encoding likewise, and the proof a key makes is the
    key (so the receiver's key decides the lottery); the empty key proves
    nothing. *)
Definition toy_prove (sk message : string) : option string :=
  match sk with
  | EmptyString => None
  | _ => Some sk
  end.

Definition toy_keys : VrfKeys :=
  {| ECPoint := string;
     vrf_prove := toy_prove;
     sk_to_privpub := fun sk => Some (0, sk);
     ec2osp := fun point => Some point |}.

(** Alice's wallet, funded with 15 coins; the wallet of Zed, whose key starts
    with a zero byte and so wins every lottery; Bob's wallet. *)
Definition wallet_alice : Wallet.t :=
  {| Wallet.total_received := 0; Wallet.sn := 0;
     Wallet.priv_key := String (byte 170) EmptyString; Wallet.amount := 15 |}.

Definition wallet_zed : Wallet.t :=
  {| Wallet.total_received := 0; Wallet.sn := 0;
     Wallet.priv_key := String (byte 0) EmptyString; Wallet.amount := 0 |}.

Definition wallet_bob : Wallet.t :=
  {| Wallet.total_received := 0; Wallet.sn := 0;
     Wallet.priv_key := String (byte 187) EmptyString; Wallet.amount := 0 |}.

Definition zed : string := "00".

Section MR01.

(** [hashlib.sha256(str(_input).encode("utf-8")).hexdigest()]; [None] when
    it raises (on a byte outside ASCII). *)
Variable H : string -> option string.

(** [vrf.vrf_fullverify(pk, proof, message)]: the VRF output; [None] when
    it raises. *)
Variable vrf_fullverify : string -> string -> string -> option string.

(** [Transaction.msg] *)
Definition msg (self : Transaction) : result string := external (H (msg_text self)).

(** [Transaction.evaluate] *)
Definition evaluate (self : Transaction) (sender_sig receiver_sig : string)
    : result Z :=
  let! msg_ := msg self in
  let! sender_pk := Hex.decode (sender_key self) in
  let! beta_sender := external (vrf_fullverify sender_pk sender_sig msg_) in
  let! receiver_pk := Hex.decode (receiver_key self) in
  let! beta_receiver := external (vrf_fullverify receiver_pk receiver_sig beta_sender) in
  let hex_beta := Hex.encode beta_receiver in
  if negb (Z.of_nat (String.length hex_beta) =? 128) then Raise AssertionError
  else calculate_payment MP (amount self) hex_beta.

(** [Bank.verify_payable] *)
Definition verify_payable (tx : Transaction) (sender_sig receiver_sig : string)
    : BankM Z :=
  do! amount_paid := lift (evaluate tx sender_sig receiver_sig) in
  if amount_paid =? 0 then raise ErrNotPayable
  else ret amount_paid.

(** [Bank.validate_payment] *)
Definition validate_payment (tx : Transaction) (sender_sig receiver_sig : string)
    : BankM Z :=
  do! amount_paid := verify_payable tx sender_sig receiver_sig in
  do! us := get_users in
  match us !! sender_key tx with
  | None => raise ErrUnknownSender
  | Some _ =>
      do! intersect_tx := find_shared_sn_subrange tx in
      match intersect_tx with
      | Some intersect_tx =>
          if tx_eq tx intersect_tx then raise ErrAlreadyProcessed
          else raise ErrDoubleSpend
      | None =>
          do! u := get_user (sender_key tx) in
          if (sn tx - amount tx <? 0) || (sn tx >? total_received u)
          then raise ErrInvalidCoinInterval
          else
            do! u := get_user (sender_key tx) in
            if balance u <? amount_paid then raise ErrNotEnoughFunds
            else ret amount_paid
      end
  end.

(** [Bank.process_payment] *)
Definition process_payment (tx : Transaction) (sender_sig receiver_sig : string)
    : BankM bool :=
  do! amount_paid := validate_payment tx sender_sig receiver_sig in
  do! _ := subtract_balance tx amount_paid sender_sig receiver_sig in
  do! _ := add_balance (receiver_key tx) amount_paid in
  ret true.

(** [tx1 != tx2], as the negation of [__eq__]. (A Python 2 classic class
    that defines no [__ne__] compares the two objects' identities
    instead; [report_double_spend] leaves the ledger alone either way.) *)
Definition tx_ne (tx1 tx2 : Transaction) : bool := negb (tx_eq tx1 tx2).

(** [Bank.report_double_spend] *)
Definition report_double_spend (tx1 : Transaction) (sender_sig1 receiver_sig1 : string)
    (tx2 : Transaction) (sender_sig2 receiver_sig2 : string) : BankM unit :=
  do! _ := lift (evaluate tx1 sender_sig1 receiver_sig1) in
  do! _ := lift (evaluate tx2 sender_sig2 receiver_sig2) in
  if tx_ne tx1 tx2
     && String.eqb (sender_key tx1) (sender_key tx2)
     && intersection_exists tx1 tx2
  then raise ErrDoubleSpend
  else ret tt.

(** ** Sequences of calls on one bank *)

Inductive Call : Type :=
  | CallDeposit (user_key : string) (amount_ : Z)
  | CallProcessPayment (tx : Transaction) (sender_sig receiver_sig : string)
  | CallReportDoubleSpend (tx1 : Transaction) (sender_sig1 receiver_sig1 : string)
      (tx2 : Transaction) (sender_sig2 receiver_sig2 : string).

(** One call: the ledger it leaves and whether it returned or raised. *)
Definition run_call (c : Call) (self : Bank) : Bank * result unit :=
  match c with
  | CallDeposit user_key amount_ => deposit user_key amount_ self
  | CallProcessPayment tx sender_sig receiver_sig =>
      (do! _ := process_payment tx sender_sig receiver_sig in ret tt) self
  | CallReportDoubleSpend tx1 s1 r1 tx2 s2 r2 =>
      report_double_spend tx1 s1 r1 tx2 s2 r2 self
  end.

(** A caller that catches every exception and goes on: the final ledger and
    the outcomes of the calls, in order. *)
Fixpoint run_calls (cs : list Call) (self : Bank) : Bank * list (result unit) :=
  match cs with
  | [] => (self, [])
  | c :: cs' =>
      let '(self', r) := run_call c self in
      let '(self'', rs) := run_calls cs' self' in
      (self'', r :: rs)
  end.

(** The transactions a call hands to [process_payment] came out of the
    constructor. *)
Definition call_constructed (c : Call) : Prop :=
  match c with
  | CallProcessPayment tx _ _ => Constructed tx
  | _ => True
  end.

Definition deposit_nonneg (c : Call) : Prop :=
  match c with
  | CallDeposit _ amount_ => 0 <= amount_
  | _ => True
  end.

(** The coins deposited by a sequence of calls. *)
Fixpoint deposited (cs : list Call) : Z :=
  match cs with
  | [] => 0
  | CallDeposit _ amount_ :: cs' => amount_ + deposited cs'
  | _ :: cs' => deposited cs'
  end.

(** The ledger a sequence of calls leaves, starting from the empty bank. *)
Definition ledger_after (cs : list Call) : Bank := fst (run_calls cs Bank_init).

(** What the bank knows of a stored check: it is filed under its sender and
    its [sn], it was payable under the stored signatures, and its interval
    does not start below coin 1. *)
Definition stored_checked (k : string) (u : UserRecord) : Prop :=
  Forall (fun kv =>
            let '(t, sender_sig, receiver_sig) := snd kv in
            fst kv = sn t
            /\ sender_key t = k
            /\ 0 <= sn t - amount t
            /\ exists paid, evaluate t sender_sig receiver_sig = Ok paid /\ paid <> 0)
         (history u).

(** What the checks stored for a record paid, each evaluated under the
    signatures stored with it. *)
Definition spent (u : UserRecord) : Z :=
  foldr (fun kv acc =>
           let '(t, sender_sig, receiver_sig) := snd kv in
           match evaluate t sender_sig receiver_sig with
           | Ok paid => paid + acc
           | Raise _ => acc
           end)
        0 (history u).

(** ** The wallet's methods *)

Section WalletMethods.

Context {keys : VrfKeys}.

(** [Wallet.pubkey] *)
Definition Wallet_pubkey (self : Wallet.t) : result string :=
  let! privpub := external (sk_to_privpub (Wallet.priv_key self)) in
  let mypk := snd privpub in
  let! osp := external (ec2osp mypk) in
  Ok (Hex.encode osp).

(** [Wallet.pay]. [amount_] is an integer by its type, which is what the
    method's first assertion asks; [clock] is [int(time.time())] at the call,
    used when no timestamp is given. *)
Definition Wallet_pay (clock : Z) (receiver_key_ : string) (amount_ : Z)
    (timestamp_ : option Z) : WalletM (Transaction * string) :=
  wdo! self := wget in
  if amount_ <? 1 then wraise ValueError
  else if amount_ >? Wallet.amount self then wraise ValueError
  else
    let timestamp_ := match timestamp_ with
                      | None => clock
                      | Some t => t
                      end in
    wdo! pubkey := wlift (Wallet_pubkey self) in
    wdo! T := wlift (Transaction_init (Wallet.sn self + amount_) amount_
                       pubkey receiver_key_ timestamp_) in
    wdo! msg_ := wlift (msg T) in
    wdo! sender_sig := wlift (external (vrf_prove (Wallet.priv_key self) msg_)) in
    wdo! _ := add_sn amount_ in
    wdo! _ := sub_amount amount_ in
    wret (T, sender_sig).

(** [Wallet.sign_receive], which only reads the wallet. *)
Definition Wallet_sign_receive (T : Transaction) (sender_sig : string)
    (self : Wallet.t) : result (Transaction * string) :=
  let! pubkey := Wallet_pubkey self in
  if negb (String.eqb (receiver_key T) pubkey) then Raise AssertionError
  else
    let! sender_pk := Hex.decode (sender_key T) in
    let! msg_ := msg T in
    let! sender_beta := external (vrf_fullverify sender_pk sender_sig msg_) in
    let! receiver_sig := external (vrf_prove (Wallet.priv_key self) sender_beta) in
    Ok (T, receiver_sig).

(** One request to pay: receiver, amount, timestamp. *)
Definition PayRequest : Type := string * Z * option Z.

(** A wallet serving requests one after the other, whatever each does: the
    wallet at the end and the checks it issued, oldest first. *)
Fixpoint pay_all (clock : Z) (reqs : list PayRequest) (self : Wallet.t)
    : Wallet.t * list Transaction :=
  match reqs with
  | [] => (self, [])
  | (receiver_key_, amount_, timestamp_) :: reqs' =>
      match Wallet_pay clock receiver_key_ amount_ timestamp_ self with
      | (self', Ok (T, _)) =>
          let '(self'', issued) := pay_all clock reqs' self' in
          (self'', T :: issued)
      | (self', Raise _) => pay_all clock reqs' self'
      end
  end.

(** The VRF verifies what [key] proves, and its outputs are 64 bytes long. *)
Definition vrf_complete_for (sk : string) : Prop :=
  forall (x : Z) (point : ECPoint) (osp message proof : string),
    sk_to_privpub sk = Some (x, point) ->
    ec2osp point = Some osp ->
    vrf_prove sk message = Some proof ->
    exists beta, vrf_fullverify osp proof message = Some beta
                 /\ String.length beta = 64%nat.

End WalletMethods.

(** ** Proof steps *)

(** Evaluate the closed computation at the head of a [let!] chain. *)
Ltac eval_head_step :=
  match goal with
  | |- rbind ?c _ = _ =>
      let v := eval vm_compute in c in
      replace c with v by (vm_compute; reflexivity);
      cbn [rbind]
  end.

(** Open the state transformers. *)
Ltac unfold_bank :=
  unfold bind, lift, ret, raise, get_users, get_user, set_user; cbn [users fst snd].

(** * Properties *)

(** ** Hexadecimal codecs *)

Lemma digit_val_digit_of (n : N) :
  (n < 16)%N -> Hex.digit_val (Hex.digit_of n) = Some (Z.of_N n).
Proof.
  intros Hn. rewrite <- (N2Nat.id n).
  assert (Hk : (N.to_nat n < 16)%nat) by lia.
  revert Hk. generalize (N.to_nat n) as k. intros k Hk.
  do 16 (destruct k as [| k]; [reflexivity |]). lia.
Qed.

Lemma byte_nibbles (c : ascii) :
  let n := N_of_ascii c in
  (n / 16 < 16)%N /\ (n mod 16 < 16)%N
  /\ 16 * Z.of_N (n / 16) + Z.of_N (n mod 16) = Z.of_N n.
Proof.
  intros n. pose proof (N_ascii_bounded c) as Hb. fold n in Hb.
  repeat split.
  - apply N.Div0.div_lt_upper_bound. lia.
  - apply N.mod_lt. lia.
  - rewrite <- (N2Z.inj_mul 16), <- N2Z.inj_add. f_equal.
    symmetry. apply N.div_mod. lia.
Qed.

Lemma int16_aux_encode (s : string) (acc : Z) :
  Hex.int16_aux acc (Hex.encode s) = Ok (Hex.be_value_aux acc s).
Proof.
  revert acc. induction s as [| c s IH]; intros acc; [reflexivity |].
  destruct (byte_nibbles c) as (Hhi & Hlo & Hsum).
  cbn [Hex.encode Hex.int16_aux Hex.be_value_aux].
  rewrite (digit_val_digit_of _ Hhi), (digit_val_digit_of _ Hlo), IH.
  do 2 f_equal. lia.
Qed.

Lemma int16_encode (s : string) :
  s <> EmptyString -> Hex.int16 (Hex.encode s) = Ok (Hex.be_value s).
Proof.
  intros Hs. destruct s as [| c s]; [congruence |].
  unfold Hex.int16, Hex.be_value. rewrite <- int16_aux_encode. reflexivity.
Qed.

Lemma decode_Raise_aux (s : string) (e : Exception) :
  (Hex.decode s = Raise e -> e = TypeError)
  /\ (forall c, Hex.decode (String c s) = Raise e -> e = TypeError).
Proof.
  induction s as [| l s' [IH1 IH2]].
  - split; [discriminate | cbn; congruence].
  - split; [apply IH2 |]. intros c. cbn [Hex.decode].
    destruct (Hex.digit_val c); [| congruence].
    destruct (Hex.digit_val l); [| congruence].
    destruct (Hex.decode s') as [rest | e']; cbn [rbind]; [discriminate |].
    intros [= <-]. apply IH1. reflexivity.
Qed.

Lemma decode_Raise (s : string) (e : Exception) :
  Hex.decode s = Raise e -> e = TypeError.
Proof. apply decode_Raise_aux. Qed.

Lemma length_encode (s : string) :
  String.length (Hex.encode s) = (2 * String.length s)%nat.
Proof. induction s as [| c s IH]; cbn [Hex.encode String.length]; lia. Qed.

Lemma be_value_aux_range (s : string) (acc : Z) :
  let n := Z.of_nat (String.length s) in
  acc * 256 ^ n <= Hex.be_value_aux acc s < (acc + 1) * 256 ^ n.
Proof.
  revert acc. induction s as [| c s IH]; intros acc n.
  - subst n. cbn. lia.
  - subst n. cbn [Hex.be_value_aux String.length].
    rewrite Nat2Z.inj_succ, Z.pow_succ_r by lia.
    specialize (IH (256 * acc + Z.of_N (N_of_ascii c))). cbv zeta in IH.
    pose proof (N_ascii_bounded c) as Hb.
    assert (0 < 256 ^ Z.of_nat (String.length s)) by (apply Z.pow_pos_nonneg; lia).
    nia.
Qed.

Lemma be_value_range (s : string) :
  0 <= Hex.be_value s < 256 ^ Z.of_nat (String.length s).
Proof.
  pose proof (be_value_aux_range s 0) as Hr. cbv zeta in Hr.
  unfold Hex.be_value. lia.
Qed.

(** ** Transactions and their intervals *)

Lemma Transaction_init_Ok (sn_ amount_ : Z) (sk rk : string) (ts : Z) (tx : Transaction) :
  Transaction_init sn_ amount_ sk rk ts = Ok tx ->
  tx = {| sn := sn_; amount := amount_; sender_key := sk; receiver_key := rk;
          timestamp := pretty ts |}
  /\ 1 <= sn_ /\ 1 <= amount_ /\ amount_ <= sn_.
Proof.
  unfold Transaction_init.
  destruct (Z.gtb_spec sn_ 0); cbn [negb]; [| discriminate].
  destruct (Z.gtb_spec amount_ 0); cbn [negb]; [| discriminate].
  destruct (Z.geb_spec sn_ amount_); cbn [negb]; [| discriminate].
  intros [= <-]. repeat split; lia.
Qed.

Lemma Constructed_wf (tx : Transaction) :
  Constructed tx -> 1 <= sn tx /\ 1 <= amount tx /\ amount tx <= sn tx.
Proof.
  intros (sn_ & amount_ & sk & rk & ts & Hinit).
  apply Transaction_init_Ok in Hinit as (-> & ?). cbn. lia.
Qed.

Lemma tx_eq_true (tx1 tx2 : Transaction) : tx_eq tx1 tx2 = true <-> tx1 = tx2.
Proof.
  unfold tx_eq. rewrite !andb_true_iff, !Z.eqb_eq, !String.eqb_eq.
  destruct tx1, tx2; cbn. split.
  - intros ((((-> & ->) & ->) & ->) & ->). reflexivity.
  - intros [= -> -> -> -> ->]. repeat split.
Qed.

Lemma intersection_exists_snd_lo (tx1 tx2 : Transaction) :
  intersection_exists tx1 tx2 =
  if interval_lo tx1 <=? interval_lo tx2
  then interval_lo tx2 <=? interval_hi tx1
  else interval_lo tx1 <=? interval_hi tx2.
Proof.
  unfold intersection_exists, interval_lo, interval_hi. cbn [fst snd].
  destruct (Z.leb_spec (sn tx1 - amount tx1 + 1) (sn tx2 - amount tx2 + 1)) as [Hle | Hlt];
    cbn [fst snd].
  - apply Z.leb_le in Hle. rewrite Hle. reflexivity.
  - assert (Hle : (sn tx2 - amount tx2 + 1 <=? sn tx1 - amount tx1 + 1) = true)
      by (apply Z.leb_le; lia).
    rewrite Hle. reflexivity.
Qed.

(** Whatever the amounts, checks that share a coin are reported. *)
Lemma share_coin_intersection_exists (tx1 tx2 : Transaction) :
  share_coin tx1 tx2 -> intersection_exists tx1 tx2 = true.
Proof.
  intros (c & H1 & H2). unfold in_interval in *.
  rewrite intersection_exists_snd_lo. unfold interval_lo, interval_hi.
  destruct (Z.leb_spec (sn tx1 - amount tx1 + 1) (sn tx2 - amount tx2 + 1));
    apply Z.leb_le; lia.
Qed.

Lemma intersection_exists_share_coin (tx1 tx2 : Transaction) :
  1 <= amount tx1 -> 1 <= amount tx2 ->
  intersection_exists tx1 tx2 = true -> share_coin tx1 tx2.
Proof.
  intros Ha1 Ha2. rewrite intersection_exists_snd_lo.
  unfold interval_lo, interval_hi, share_coin, in_interval.
  destruct (Z.leb_spec (sn tx1 - amount tx1 + 1) (sn tx2 - amount tx2 + 1));
    intros Hle%Z.leb_le.
  - exists (sn tx2 - amount tx2 + 1). lia.
  - exists (sn tx1 - amount tx1 + 1). lia.
Qed.

(** C7. For checks with [sn >= amount >= 1], [intersection_exists] answers
    [True] exactly when [max(lo_1, lo_2) <= min(hi_1, hi_2)] for
    [lo_i = sn_i - amount_i + 1] and [hi_i = sn_i], that is exactly when the
    coin intervals [(sn_i - amount_i, sn_i]] have a coin in common. *)
Theorem intersection_exists_iff_overlap (tx1 tx2 : Transaction) :
  sn tx1 >= amount tx1 -> amount tx1 >= 1 ->
  sn tx2 >= amount tx2 -> amount tx2 >= 1 ->
  (intersection_exists tx1 tx2 = true
   <-> Z.max (interval_lo tx1) (interval_lo tx2)
       <= Z.min (interval_hi tx1) (interval_hi tx2))
  /\ (intersection_exists tx1 tx2 = true <-> share_coin tx1 tx2).
Proof.
  intros _ Ha1 _ Ha2. split.
  - rewrite intersection_exists_snd_lo. unfold interval_lo, interval_hi.
    destruct (Z.leb_spec (sn tx1 - amount tx1 + 1) (sn tx2 - amount tx2 + 1));
      rewrite Z.leb_le; lia.
  - split.
    + apply intersection_exists_share_coin; lia.
    + apply share_coin_intersection_exists.
Qed.

(** ** The payable amount *)

(** A property of the residues [0 .. n - 1], one residue at a time. *)
Lemma residue_cases (P : Z -> Prop) (n : nat) :
  (forall k : nat, (k < n)%nat -> P (Z.of_nat k)) ->
  forall r : Z, 0 <= r < Z.of_nat n -> P r.
Proof.
  intros HP r Hr. rewrite <- (Z2Nat.id r) by lia. apply HP. lia.
Qed.

Lemma float_threshold_error (r : Z) :
  0 <= r < 10 -> Z.abs (float_threshold r * 10 - r * 2 ^ 512) <= 2 ^ 461.
Proof.
  revert r. apply (residue_cases _ 10). intros k Hk.
  do 10 (destruct k as [| k]; [vm_compute; discriminate |]). lia.
Qed.

(** With [M = 10] the float threshold of residue [r] is [float_threshold r]. *)
Lemma calculate_payment_residue (q r X : Z) (attempt_hex : string) :
  0 <= r < 10 ->
  Hex.int16 attempt_hex = Ok X ->
  (let! fMP := Float.of_int 10 in
   let! frem := Float.of_int r in
   let! prob := Float.div frem fMP in
   let! two512 := Float.of_int (2 ^ 512) in
   let difficulty_target := Float.mul two512 prob in
   let! attempt := Hex.int16 attempt_hex in
   if Float.int_lt attempt difficulty_target then Ok (q + 10) else Ok q)
  = Ok (q + (if X <? float_threshold r then 10 else 0)).
Proof.
  intros Hr HX. rewrite HX. revert r Hr.
  assert (Hgoal : forall f T : Z -> bool,
             (forall x, f x = T x) ->
             (if f X then Ok (q + 10) else Ok q) = Ok (q + (if T X then 10 else 0))).
  { intros f T Hf. rewrite Hf. destruct (T X); [reflexivity | f_equal; lia]. }
  apply (residue_cases _ 10). intros k Hk.
  do 10 (destruct k as [| k];
         [ do 4 eval_head_step; cbv zeta; cbn [rbind];
           match goal with
           | |- context [Float.mul ?a ?b] =>
               let v := eval vm_compute in (Float.mul a b) in
               replace (Float.mul a b) with v by (vm_compute; reflexivity)
           end;
           apply (Hgoal (fun x => Float.int_lt x _) (fun x => x <? _));
           intros x; reflexivity |]).
  lia.
Qed.

Lemma calculate_payment_MP (amount_ : Z) (beta : string) :
  beta <> EmptyString ->
  calculate_payment MP amount_ (Hex.encode beta)
  = Ok (payable_float amount_ (Hex.be_value beta)).
Proof.
  intros Hbeta. unfold calculate_payment, payable_float.
  change (MP =? 0) with false. cbv iota zeta.
  apply calculate_payment_residue.
  - apply Z.mod_pos_bound. reflexivity.
  - apply int16_encode, Hbeta.
Qed.

Lemma payable_float_no_residue (amount_ X : Z) :
  0 <= X -> amount_ mod MP = 0 -> payable_float amount_ X = amount_.
Proof.
  intros HX Hmod. unfold payable_float. rewrite Hmod.
  change (float_threshold 0) with 0.
  destruct (Z.ltb_spec X 0); [lia |].
  pose proof (Z.div_mod amount_ MP) as Hdm. unfold MP in *. lia.
Qed.

Lemma payable_float_exact (amount_ X : Z) :
  2 ^ 461 < Z.abs (X * MP - (amount_ mod MP) * 2 ^ 512) ->
  payable_float amount_ X = payable_exact MP amount_ X.
Proof.
  intros Hfar. unfold payable_float, payable_exact. f_equal.
  assert (Hr : 0 <= amount_ mod MP < 10) by (apply Z.mod_pos_bound; reflexivity).
  pose proof (float_threshold_error _ Hr) as Herr.
  unfold MP in *.
  set (r := amount_ mod 10) in *. set (T := float_threshold r) in *.
  set (P := 2 ^ 512) in *. set (E := 2 ^ 461) in *.
  destruct (Z.ltb_spec X T), (Z.ltb_spec (X * 10) (r * P)); try reflexivity; lia.
Qed.

Lemma payable_float_nonneg (amount_ X : Z) :
  0 <= amount_ -> 0 <= payable_float amount_ X.
Proof.
  intros Ha. unfold payable_float, MP.
  assert (0 <= amount_ / 10) by (apply Z.div_pos; lia).
  destruct (X <? _); lia.
Qed.

(** What [evaluate] returns, it computed from a 64-byte VRF output. *)
Lemma evaluate_Ok_inv (tx : Transaction) (sender_sig receiver_sig : string) (p : Z) :
  evaluate tx sender_sig receiver_sig = Ok p ->
  exists beta, String.length beta = 64%nat
               /\ p = payable_float (amount tx) (Hex.be_value beta).
Proof.
  unfold evaluate.
  unfold msg.
  destruct (H (msg_text tx)) as [m |]; cbn [rbind external]; [| discriminate].
  destruct (Hex.decode (sender_key tx)) as [spk |]; cbn [rbind]; [| discriminate].
  destruct (vrf_fullverify spk sender_sig m) as [bs |]; cbn [rbind external];
    [| discriminate].
  destruct (Hex.decode (receiver_key tx)) as [rpk |]; cbn [rbind]; [| discriminate].
  destruct (vrf_fullverify rpk receiver_sig bs) as [beta |]; cbn [rbind external];
    [| discriminate].
  rewrite length_encode.
  destruct (Z.eqb_spec (Z.of_nat (2 * String.length beta)) 128) as [Hlen | Hlen];
    cbn [negb]; [| discriminate].
  assert (Hbeta : beta <> EmptyString) by (intros ->; cbn in Hlen; lia).
  rewrite (calculate_payment_MP _ _ Hbeta). intros [= <-].
  exists beta. split; [lia | reflexivity].
Qed.

(** [evaluate] raises no error of the bank. *)
Lemma evaluate_Raise (tx : Transaction) (sender_sig receiver_sig : string) (e : Exception) :
  evaluate tx sender_sig receiver_sig = Raise e ->
  e = ExternalError \/ e = TypeError \/ e = AssertionError.
Proof.
  unfold evaluate, msg.
  destruct (H (msg_text tx)) as [m |]; cbn [rbind external];
    [| intros [= <-]; auto].
  destruct (Hex.decode (sender_key tx)) as [spk | e1] eqn:Hds; cbn [rbind].
  2: { intros [= <-]. apply decode_Raise in Hds. auto. }
  destruct (vrf_fullverify spk sender_sig m) as [bs |]; cbn [rbind external];
    [| intros [= <-]; auto].
  destruct (Hex.decode (receiver_key tx)) as [rpk | e1] eqn:Hdr; cbn [rbind].
  2: { intros [= <-]. apply decode_Raise in Hdr. auto. }
  destruct (vrf_fullverify rpk receiver_sig bs) as [beta |]; cbn [rbind external];
    [| intros [= <-]; auto].
  rewrite length_encode.
  destruct (Z.eqb_spec (Z.of_nat (2 * String.length beta)) 128) as [Hlen | Hlen];
    cbn [negb]; [| intros [= <-]; auto].
  assert (Hbeta : beta <> EmptyString) by (intros ->; cbn in Hlen; lia).
  rewrite (calculate_payment_MP _ _ Hbeta). discriminate.
Qed.

Lemma evaluate_nonneg (tx : Transaction) (sender_sig receiver_sig : string) (p : Z) :
  1 <= amount tx -> evaluate tx sender_sig receiver_sig = Ok p -> 0 <= p.
Proof.
  intros Ha (beta & _ & ->)%evaluate_Ok_inv. apply payable_float_nonneg. lia.
Qed.

(** C2, as the doubles of [calculate_payment] make it. For every amount and
    every 64-byte VRF output read as an integer [X] in [[0, 2^512)], the
    payable amount is [(amount // M) * M] plus an extra [M] exactly when
    [X < 2^512 * fl(r / M)], where [r = amount mod M] and [fl(r / M)] is the
    double nearest to [r / M]; the comparison is strict and exact. With
    [r = 0] the result is [amount] for every [X]; and whenever [X * M] is
    farther than [2^461] from [r * 2^512] the result is the one the exact
    threshold [r * 2^512 / M] gives. [evaluate] returns this amount for the
    receiver's VRF output. *)
Theorem payable_amount_float_threshold (amount_ : Z) (beta : string) :
  String.length beta = 64%nat ->
  let X := Hex.be_value beta in
  0 <= X < 2 ^ 512
  /\ calculate_payment MP amount_ (Hex.encode beta) = Ok (payable_float amount_ X)
  /\ (amount_ mod MP = 0 -> payable_float amount_ X = amount_)
  /\ (2 ^ 461 < Z.abs (X * MP - (amount_ mod MP) * 2 ^ 512) ->
      payable_float amount_ X = payable_exact MP amount_ X)
  /\ (forall (tx : Transaction) (sender_sig receiver_sig msg_ pk_s beta_s pk_r : string),
         amount tx = amount_ ->
         msg tx = Ok msg_ ->
         Hex.decode (sender_key tx) = Ok pk_s ->
         vrf_fullverify pk_s sender_sig msg_ = Some beta_s ->
         Hex.decode (receiver_key tx) = Ok pk_r ->
         vrf_fullverify pk_r receiver_sig beta_s = Some beta ->
         evaluate tx sender_sig receiver_sig = Ok (payable_float amount_ X)).
Proof.
  intros Hlen X.
  assert (Hbeta : beta <> EmptyString) by (intros ->; discriminate).
  assert (HX : 0 <= X < 2 ^ 512).
  { pose proof (be_value_range beta) as Hr. rewrite Hlen in Hr. exact Hr. }
  split; [exact HX |].
  split; [apply calculate_payment_MP, Hbeta |].
  split; [apply payable_float_no_residue; lia |].
  split; [apply payable_float_exact |].
  intros tx sender_sig receiver_sig msg_ pk_s beta_s pk_r Ha Hm Hds Hvs Hdr Hvr.
  unfold evaluate. rewrite Hm. cbn [rbind]. rewrite Hds. cbn [rbind].
  rewrite Hvs. cbn [rbind external]. rewrite Hdr. cbn [rbind]. rewrite Hvr.
  cbn [rbind external].
  rewrite length_encode, Hlen. cbn [negb Z.eqb Z.of_nat Nat.mul]. rewrite Ha.
  change (negb (Z.of_nat (2 * 64) =? 128)) with false. cbv iota.
  apply calculate_payment_MP, Hbeta.
Qed.

(** ** The methods of the bank, one by one *)

(** [validate_payment] never writes, and this is the order of its checks. *)
Lemma validate_payment_unfold (tx : Transaction) (sender_sig receiver_sig : string)
    (b : Bank) :
  validate_payment tx sender_sig receiver_sig b =
  (b,
   match evaluate tx sender_sig receiver_sig with
   | Raise e => Raise e
   | Ok amount_paid =>
       if amount_paid =? 0 then Raise ErrNotPayable else
       match users b !! sender_key tx with
       | None => Raise ErrUnknownSender
       | Some u =>
           match first_intersecting tx (history_txs (history u)) with
           | Some intersect_tx =>
               if tx_eq tx intersect_tx then Raise ErrAlreadyProcessed
               else Raise ErrDoubleSpend
           | None =>
               if (sn tx - amount tx <? 0) || (sn tx >? total_received u)
               then Raise ErrInvalidCoinInterval
               else if balance u <? amount_paid then Raise ErrNotEnoughFunds
               else Ok amount_paid
           end
       end
   end).
Proof.
  unfold validate_payment, verify_payable, find_shared_sn_subrange. unfold_bank.
  destruct (evaluate tx sender_sig receiver_sig) as [p | e]; [| reflexivity].
  destruct (p =? 0); [reflexivity |].
  destruct (users b !! sender_key tx) as [u |] eqn:Hu; [| reflexivity].
  rewrite Hu.
  destruct (first_intersecting tx (history_txs (history u))) as [itx |].
  - destruct (tx_eq tx itx); reflexivity.
  - rewrite Hu.
    destruct ((sn tx - amount tx <? 0) || (sn tx >? total_received u));
      [reflexivity |].
    rewrite Hu. destruct (balance u <? p); reflexivity.
Qed.

Lemma ensure_user_exists_unfold (k : string) (b : Bank) :
  ensure_user_exists k b = ({| users := <[k := user_or_new b k]> (users b) |}, Ok tt).
Proof.
  unfold ensure_user_exists, user_or_new. unfold_bank.
  destruct (users b !! k) as [u |] eqn:Hu; cbn [default]; [| reflexivity].
  rewrite (insert_id _ _ _ Hu). destruct b. reflexivity.
Qed.

(** [add_balance] cannot raise. *)
Lemma add_balance_unfold (k : string) (a : Z) (b : Bank) :
  add_balance k a b =
  ({| users := <[k := credit a (user_or_new b k)]> (users b) |}, Ok tt).
Proof.
  unfold add_balance, bind at 1. rewrite ensure_user_exists_unfold. unfold_bank.
  rewrite !lookup_insert_eq. cbn [users total_received balance history].
  rewrite !insert_insert_eq. reflexivity.
Qed.

Lemma subtract_balance_unfold (tx : Transaction) (paid : Z) (sender_sig receiver_sig : string)
    (b : Bank) (u : UserRecord) :
  users b !! sender_key tx = Some u ->
  subtract_balance tx paid sender_sig receiver_sig b =
  ({| users := <[sender_key tx := debit tx paid sender_sig receiver_sig u]> (users b) |},
   Ok tt).
Proof.
  intros Hu. unfold subtract_balance. unfold_bank. rewrite Hu.
  rewrite !lookup_insert_eq. cbn [users total_received balance history].
  rewrite !insert_insert_eq. reflexivity.
Qed.

Lemma process_payment_unfold (tx : Transaction) (sender_sig receiver_sig : string)
    (b : Bank) :
  process_payment tx sender_sig receiver_sig b =
  match snd (validate_payment tx sender_sig receiver_sig b), users b !! sender_key tx with
  | Ok paid, Some u => (committed tx paid sender_sig receiver_sig b u, Ok true)
  | Ok paid, None => (b, Raise KeyError)
  | Raise e, _ => (b, Raise e)
  end.
Proof.
  unfold process_payment, bind at 1. rewrite validate_payment_unfold. cbn [snd].
  destruct (evaluate tx sender_sig receiver_sig) as [p | e]; [| reflexivity].
  destruct (p =? 0); [reflexivity |].
  destruct (users b !! sender_key tx) as [u |] eqn:Hu; [| reflexivity].
  destruct (first_intersecting tx (history_txs (history u))) as [itx |].
  { destruct (tx_eq tx itx); reflexivity. }
  destruct ((sn tx - amount tx <? 0) || (sn tx >? total_received u)); [reflexivity |].
  destruct (balance u <? p); [reflexivity |].
  unfold bind at 1. rewrite (subtract_balance_unfold _ _ _ _ _ _ Hu).
  unfold bind at 1. rewrite add_balance_unfold. reflexivity.
Qed.

(** When [validate_payment] accepts, every check passed. *)
Lemma validate_payment_Ok (tx : Transaction) (sender_sig receiver_sig : string)
    (b b' : Bank) (paid : Z) :
  validate_payment tx sender_sig receiver_sig b = (b', Ok paid) ->
  b' = b
  /\ evaluate tx sender_sig receiver_sig = Ok paid
  /\ paid <> 0
  /\ exists u, users b !! sender_key tx = Some u
               /\ first_intersecting tx (history_txs (history u)) = None
               /\ 0 <= sn tx - amount tx
               /\ sn tx <= total_received u
               /\ paid <= balance u.
Proof.
  rewrite validate_payment_unfold. intros [= <- Hres]. split; [reflexivity |].
  destruct (evaluate tx sender_sig receiver_sig) as [p | e]; [| discriminate].
  destruct (Z.eqb_spec p 0); [discriminate |].
  destruct (users b !! sender_key tx) as [u |]; [| discriminate].
  destruct (first_intersecting tx (history_txs (history u))) as [itx |] eqn:Hfirst.
  { destruct (tx_eq tx itx); discriminate. }
  destruct (Z.ltb_spec (sn tx - amount tx) 0); cbn [orb] in Hres; [discriminate |].
  destruct (Z.gtb_spec (sn tx) (total_received u)); [discriminate |].
  destruct (Z.ltb_spec (balance u) p); [discriminate |].
  injection Hres as ->.
  split; [reflexivity |]. split; [assumption |].
  exists u. repeat split; try reflexivity; try assumption; lia.
Qed.

(** A successful [process_payment] is a validated payment, committed. *)
Lemma process_payment_Ok (tx : Transaction) (sender_sig receiver_sig : string)
    (b b' : Bank) (ok : bool) :
  process_payment tx sender_sig receiver_sig b = (b', Ok ok) ->
  exists paid u,
    validate_payment tx sender_sig receiver_sig b = (b, Ok paid)
    /\ users b !! sender_key tx = Some u
    /\ b' = committed tx paid sender_sig receiver_sig b u.
Proof.
  rewrite process_payment_unfold.
  destruct (validate_payment tx sender_sig receiver_sig b) as [b0 [paid | e]] eqn:Hv;
    cbn [snd]; [| discriminate].
  destruct (validate_payment_Ok _ _ _ _ _ _ Hv) as (-> & _ & _ & u & Hu & _).
  rewrite Hu. intros [= <- _]. eauto.
Qed.

(** [process_payment] returns [True] when [validate_payment] accepts and
    raises what [validate_payment] raises. *)
Lemma process_payment_outcome (tx : Transaction) (sender_sig receiver_sig : string)
    (b : Bank) :
  snd (process_payment tx sender_sig receiver_sig b) =
  match snd (validate_payment tx sender_sig receiver_sig b) with
  | Ok _ => Ok true
  | Raise e => Raise e
  end.
Proof.
  rewrite process_payment_unfold.
  destruct (validate_payment tx sender_sig receiver_sig b) as [b0 [paid | e]] eqn:Hv;
    cbn [snd]; [| reflexivity].
  destruct (validate_payment_Ok _ _ _ _ _ _ Hv) as (_ & _ & _ & u & -> & _).
  reflexivity.
Qed.

(** ** Failure leaves the ledger alone *)

(** [report_double_spend] never writes, and this is what it answers. *)
Lemma report_double_spend_unfold (tx1 : Transaction) (sender_sig1 receiver_sig1 : string)
    (tx2 : Transaction) (sender_sig2 receiver_sig2 : string) (b : Bank) :
  report_double_spend tx1 sender_sig1 receiver_sig1 tx2 sender_sig2 receiver_sig2 b =
  (b,
   let! _ := evaluate tx1 sender_sig1 receiver_sig1 in
   let! _ := evaluate tx2 sender_sig2 receiver_sig2 in
   if tx_ne tx1 tx2
      && String.eqb (sender_key tx1) (sender_key tx2)
      && intersection_exists tx1 tx2
   then Raise ErrDoubleSpend
   else Ok tt).
Proof.
  unfold report_double_spend. unfold_bank.
  destruct (evaluate tx1 sender_sig1 receiver_sig1); [| reflexivity].
  destruct (evaluate tx2 sender_sig2 receiver_sig2); [| reflexivity].
  cbn [rbind].
  destruct (tx_ne tx1 tx2 && String.eqb (sender_key tx1) (sender_key tx2)
            && intersection_exists tx1 tx2); reflexivity.
Qed.

(** C1. [process_payment] is all-or-nothing: whatever it raises, a
    signature failure or one of the bank's own errors, the ledger it leaves
    is the ledger it found. *)
Theorem process_payment_all_or_nothing (tx : Transaction)
    (sender_sig receiver_sig : string) (b b' : Bank) (e : Exception) :
  process_payment tx sender_sig receiver_sig b = (b', Raise e) -> b' = b.
Proof.
  rewrite process_payment_unfold.
  destruct (validate_payment tx sender_sig receiver_sig b) as [b0 [paid | e0]] eqn:Hv;
    cbn [snd].
  - (* every check passed: the sender has a record and the commit cannot raise *)
    destruct (validate_payment_Ok _ _ _ _ _ _ Hv) as (_ & _ & _ & u & -> & _).
    discriminate.
  - (* a check failed: nothing was written yet *)
    intros [= <- _]. reflexivity.
Qed.

(** C10. [report_double_spend] never writes to the ledger, whether it
    returns, raises [ErrDoubleSpend] or fails on a signature. *)
Theorem report_double_spend_frame (tx1 : Transaction) (sender_sig1 receiver_sig1 : string)
    (tx2 : Transaction) (sender_sig2 receiver_sig2 : string) (b : Bank) :
  fst (report_double_spend tx1 sender_sig1 receiver_sig1
         tx2 sender_sig2 receiver_sig2 b) = b.
Proof. rewrite report_double_spend_unfold. reflexivity. Qed.

(** C9. [user_balance] returns [0] for a key without a record and the
    record's [balance] otherwise; it never fails and never writes. *)
Theorem user_balance_lookup (user_key : string) (b : Bank) :
  user_balance user_key b =
  (b, Ok match users b !! user_key with
         | None => 0
         | Some u => balance u
         end).
Proof.
  unfold user_balance. unfold_bank.
  destruct (users b !! user_key) as [u |] eqn:Hu; [| reflexivity].
  rewrite Hu. reflexivity.
Qed.

(** C3, as the code has it. [deposit] does not look at the sign of
    [amount]: for every integer [amount] it returns normally and adds
    [amount] to both [balance] and [total_received] of [user_key], whose
    record is created with zeros if absent; the history of [user_key] and
    the records of all other users stay as they were. *)
Theorem deposit_credits_any_amount (user_key : string) (amount_ : Z) (b : Bank) :
  exists b',
    deposit user_key amount_ b = (b', Ok tt)
    /\ users b' !! user_key =
       Some {| total_received := total_received (user_or_new b user_key) + amount_;
               balance := balance (user_or_new b user_key) + amount_;
               history := history (user_or_new b user_key) |}
    /\ (forall k, k <> user_key -> users b' !! k = users b !! k).
Proof.
  unfold deposit. rewrite add_balance_unfold. eexists. split; [reflexivity |].
  cbn [users]. split.
  - rewrite lookup_insert_eq. reflexivity.
  - intros k Hk. rewrite lookup_insert_ne by congruence. reflexivity.
Qed.

(** ** The order of the checks *)

Lemma first_intersecting_Some (tx : Transaction) (txs : list Transaction) (t : Transaction) :
  In t txs -> intersection_exists tx t = true ->
  exists t', first_intersecting tx txs = Some t'.
Proof.
  induction txs as [| t0 txs IH]; intros Hin Hint; [destruct Hin |].
  cbn [first_intersecting].
  destruct (intersection_exists tx t0) eqn:H0; [eauto |].
  destruct Hin as [-> | Hin]; [congruence | auto].
Qed.

Lemma first_intersecting_None (tx : Transaction) (txs : list Transaction) :
  first_intersecting tx txs = None ->
  forall t, In t txs -> intersection_exists tx t = false.
Proof.
  induction txs as [| t0 txs IH]; intros Hnone t Hin; [destruct Hin |].
  cbn [first_intersecting] in Hnone.
  destruct (intersection_exists tx t0) eqn:H0; [discriminate |].
  destruct Hin as [-> | Hin]; auto.
Qed.

(** C6. [process_payment] checks in this order: signatures, payability
    ([ErrNotPayable]), the sender's record ([ErrUnknownSender]), interval
    overlap ([ErrAlreadyProcessed] when the stored check it meets first equals
    [tx] field by field, [ErrDoubleSpend] otherwise), the coin range
    ([ErrInvalidCoinInterval]), the funds ([ErrNotEnoughFunds]). So a payable
    check of a known sender that shares a coin with a stored check raises
    [ErrDoubleSpend] or [ErrAlreadyProcessed], whatever its range and the
    sender's funds. *)
Theorem process_payment_check_order (tx : Transaction)
    (sender_sig receiver_sig : string) (b : Bank) :
  let outcome := snd (process_payment tx sender_sig receiver_sig b) in
  (forall e, evaluate tx sender_sig receiver_sig = Raise e -> outcome = Raise e)
  /\ (evaluate tx sender_sig receiver_sig = Ok 0 -> outcome = Raise ErrNotPayable)
  /\ (forall paid, evaluate tx sender_sig receiver_sig = Ok paid -> paid <> 0 ->
      (users b !! sender_key tx = None -> outcome = Raise ErrUnknownSender)
      /\ (forall u, users b !! sender_key tx = Some u ->
          (forall t, first_intersecting tx (history_txs (history u)) = Some t ->
                     outcome = Raise (if tx_eq tx t then ErrAlreadyProcessed
                                      else ErrDoubleSpend))
          /\ (forall t, In t (history_txs (history u)) -> share_coin tx t ->
                        outcome = Raise ErrDoubleSpend
                        \/ outcome = Raise ErrAlreadyProcessed)
          /\ (first_intersecting tx (history_txs (history u)) = None ->
              (sn tx - amount tx < 0 \/ sn tx > total_received u ->
               outcome = Raise ErrInvalidCoinInterval)
              /\ (0 <= sn tx - amount tx -> sn tx <= total_received u ->
                  balance u < paid -> outcome = Raise ErrNotEnoughFunds)))).
Proof.
  intros outcome. subst outcome.
  rewrite process_payment_outcome, validate_payment_unfold. cbn [snd].
  split; [intros e -> | split; [intros -> |]]; [reflexivity | reflexivity |].
  intros paid -> Hpaid. apply Z.eqb_neq in Hpaid. rewrite Hpaid.
  split; [intros ->; reflexivity |].
  intros u ->.
  assert (Hfirst : forall t, first_intersecting tx (history_txs (history u)) = Some t ->
            match
              match first_intersecting tx (history_txs (history u)) with
              | Some intersect_tx =>
                  if tx_eq tx intersect_tx then Raise ErrAlreadyProcessed
                  else Raise ErrDoubleSpend
              | None =>
                  if (sn tx - amount tx <? 0) || (sn tx >? total_received u)
                  then Raise ErrInvalidCoinInterval
                  else if balance u <? paid then Raise ErrNotEnoughFunds
                       else Ok paid
              end
            with
            | Ok _ => Ok true
            | Raise e => Raise e
            end = Raise (if tx_eq tx t then ErrAlreadyProcessed else ErrDoubleSpend)).
  { intros t ->. destruct (tx_eq tx t); reflexivity. }
  split; [exact Hfirst |]. split.
  - intros t Hin Hshare.
    destruct (first_intersecting_Some tx _ t Hin
                (share_coin_intersection_exists _ _ Hshare)) as (t' & Ht').
    rewrite (Hfirst t' Ht'). destruct (tx_eq tx t'); auto.
  - intros ->. split.
    + intros Hrange.
      assert (Hor : (sn tx - amount tx <? 0) || (sn tx >? total_received u) = true).
      { apply orb_true_iff.
        destruct Hrange; [left; apply Z.ltb_lt | right; apply Z.gtb_lt]; lia. }
      rewrite Hor. reflexivity.
    + intros Hlo Hhi Hfunds.
      assert (Hor : (sn tx - amount tx <? 0) || (sn tx >? total_received u) = false).
      { apply orb_false_iff. rewrite Z.gtb_ltb. split; apply Z.ltb_ge; lia. }
      rewrite Hor. apply Z.ltb_lt in Hfunds. rewrite Hfunds. reflexivity.
Qed.

(** C8. The constructor returns a transaction exactly when [sn >= 1],
    [amount >= 1] and [sn >= amount], and fails its assertion otherwise; so
    for a constructed transaction the test [tx.sn - tx.amount < 0] of
    [validate_payment] is false, and [process_payment] raises
    [ErrInvalidCoinInterval] only when [tx.sn] exceeds the sender's
    [total_received]. *)
Theorem coin_range_underflow_unreachable (sn_ amount_ : Z) (sk rk : string) (ts : Z) :
  match Transaction_init sn_ amount_ sk rk ts with
  | Raise e => e = AssertionError /\ ~ (sn_ >= 1 /\ amount_ >= 1 /\ sn_ >= amount_)
  | Ok tx =>
      sn tx = sn_ /\ amount tx = amount_
      /\ sn tx >= 1 /\ amount tx >= 1 /\ sn tx >= amount tx
      /\ (sn tx - amount tx <? 0) = false
      /\ forall (sender_sig receiver_sig : string) (b b' : Bank),
           process_payment tx sender_sig receiver_sig b
           = (b', Raise ErrInvalidCoinInterval) ->
           exists u, users b !! sender_key tx = Some u /\ sn tx > total_received u
  end.
Proof.
  destruct (Transaction_init sn_ amount_ sk rk ts) as [tx | e] eqn:Hinit.
  - apply Transaction_init_Ok in Hinit as (-> & Hsn & Hamount & Hle). cbn [sn amount].
    assert (Hunder : (sn_ - amount_ <? 0) = false) by (apply Z.ltb_ge; lia).
    repeat (split; [first [reflexivity | lia | assumption] |]).
    intros sender_sig receiver_sig b b'.
    rewrite process_payment_unfold, validate_payment_unfold. cbn [snd sn amount sender_key].
    destruct (evaluate _ sender_sig receiver_sig) as [p | e] eqn:Heval.
    2: { apply evaluate_Raise in Heval.
         destruct (users b !! sk); intros [= _ ->]; intuition discriminate. }
    destruct (p =? 0).
    { destruct (users b !! sk); discriminate. }
    destruct (users b !! sk) as [u |]; [| discriminate].
    destruct (first_intersecting _ (history_txs (history u))) as [itx |].
    { destruct (tx_eq _ itx); discriminate. }
    rewrite Hunder. cbn [orb].
    destruct (Z.gtb_spec sn_ (total_received u)).
    + intros _. exists u. split; [reflexivity | lia].
    + destruct (balance u <? p); discriminate.
  - unfold Transaction_init in Hinit.
    destruct (Z.gtb_spec sn_ 0); cbn [negb] in Hinit;
      [| injection Hinit as <-; split; [reflexivity | lia]].
    destruct (Z.gtb_spec amount_ 0); cbn [negb] in Hinit;
      [| injection Hinit as <-; split; [reflexivity | lia]].
    destruct (Z.geb_spec sn_ amount_); cbn [negb] in Hinit;
      [discriminate | injection Hinit as <-; split; [reflexivity | lia]].
Qed.

(** ** Invariants of the ledger *)

Lemma share_coin_sym (t1 t2 : Transaction) : share_coin t1 t2 -> share_coin t2 t1.
Proof. intros (c & H1 & H2). exists c. auto. Qed.

Lemma pairwise_disjoint_nil : pairwise_disjoint [].
Proof. intros i j t1 t2 _ Hi. rewrite lookup_nil in Hi. discriminate. Qed.

Lemma pairwise_disjoint_cons (t : Transaction) (l : list Transaction) :
  pairwise_disjoint (t :: l)
  <-> (forall t', In t' l -> ~ share_coin t t') /\ pairwise_disjoint l.
Proof.
  split.
  - intros Hpd. split.
    + intros t' (j & Hj)%list_elem_of_In%list_elem_of_lookup.
      apply (Hpd 0%nat (S j)); [lia | reflexivity | exact Hj].
    + intros i j t1 t2 Hij Hi Hj. apply (Hpd (S i) (S j)); [lia | exact Hi | exact Hj].
  - intros [Hhead Htail] i j t1 t2 Hij Hi Hj.
    destruct i as [| i], j as [| j]; cbn in Hi, Hj.
    + lia.
    + injection Hi as <-. apply Hhead, list_elem_of_In, list_elem_of_lookup. eauto.
    + injection Hj as <-. intros Hs%share_coin_sym. revert Hs.
      apply Hhead, list_elem_of_In, list_elem_of_lookup. eauto.
    + apply (Htail i j); [lia | exact Hi | exact Hj].
Qed.

Lemma history_txs_dict_set_In (k : Z) (e : HistoryEntry) (h : list (Z * HistoryEntry))
    (t : Transaction) :
  In t (history_txs (dict_set k e h)) -> t = fst (fst e) \/ In t (history_txs h).
Proof.
  induction h as [| [k' e'] h IH]; cbn [dict_set].
  - cbn. intuition.
  - destruct (k' =? k); cbn; intuition.
Qed.

Lemma pairwise_disjoint_dict_set (k : Z) (e : HistoryEntry) (h : list (Z * HistoryEntry)) :
  (forall t, In t (history_txs h) -> ~ share_coin (fst (fst e)) t) ->
  pairwise_disjoint (history_txs h) ->
  pairwise_disjoint (history_txs (dict_set k e h)).
Proof.
  induction h as [| [k' e'] h IH]; intros Hnew Hpd; cbn [dict_set].
  - cbn. apply pairwise_disjoint_cons. split; [intros t' [] | apply pairwise_disjoint_nil].
  - cbn [history_txs map fst snd] in Hnew, Hpd.
    apply pairwise_disjoint_cons in Hpd as [Hhead Htail].
    destruct (k' =? k); cbn [history_txs map fst snd]; apply pairwise_disjoint_cons.
    + split; [| exact Htail]. intros t' Hin. apply Hnew. right. exact Hin.
    + split.
      * intros t' [-> | Hin]%history_txs_dict_set_In.
        -- intros Hs%share_coin_sym. revert Hs. apply Hnew. left. reflexivity.
        -- apply Hhead, Hin.
      * apply IH; [| exact Htail]. intros t Hin. apply Hnew. right. exact Hin.
Qed.

Lemma dict_set_keys_In {V : Type} (k : Z) (v : V) (d : list (Z * V)) (k0 : Z) :
  In k0 (map fst (dict_set k v d)) -> k0 = k \/ In k0 (map fst d).
Proof.
  induction d as [| [k' v'] d IH]; cbn [dict_set].
  - cbn. intuition.
  - destruct (Z.eqb_spec k' k) as [-> |]; cbn; intuition.
Qed.

Lemma dict_set_NoDup {V : Type} (k : Z) (v : V) (d : list (Z * V)) :
  NoDup (map fst d) -> NoDup (map fst (dict_set k v d)).
Proof.
  induction d as [| [k' v'] d IH]; intros Hnd; cbn [dict_set].
  - cbn. apply NoDup_cons. split; [apply not_elem_of_nil | apply NoDup_nil_2].
  - cbn [map fst] in Hnd. apply NoDup_cons in Hnd as [Hnotin Hnd].
    destruct (Z.eqb_spec k' k) as [-> | Hne]; cbn [map fst]; apply NoDup_cons.
    + auto.
    + split; [| auto]. rewrite list_elem_of_In in *.
      intros [-> | Hin]%dict_set_keys_In; [congruence | auto].
Qed.

Lemma dict_set_Forall {V : Type} (P : Z * V -> Prop) (k : Z) (v : V) (d : list (Z * V)) :
  P (k, v) -> Forall P d -> Forall P (dict_set k v d).
Proof.
  intros Hkv. induction 1 as [| [k' v'] d Hhd Htl IH]; cbn [dict_set].
  - repeat constructor. exact Hkv.
  - destruct (k' =? k); constructor; auto.
Qed.

Section Preservation.

Variable P : UserRecord -> Prop.

Lemma every_user_insert (b : Bank) (k : string) (u : UserRecord) :
  every_user P b -> P u -> every_user P {| users := <[k := u]> (users b) |}.
Proof.
  intros Hb Hu k' u'. cbn [users]. rewrite lookup_insert.
  case_decide; [intros [= <-]; exact Hu | apply Hb].
Qed.

Lemma every_user_or_new (b : Bank) (k : string) :
  every_user P b -> P new_user -> P (user_or_new b k).
Proof.
  intros Hb Hnew. unfold user_or_new.
  destruct (users b !! k) as [u |] eqn:Hu; cbn [default]; [apply (Hb k u Hu) | exact Hnew].
Qed.

Hypothesis P_new_user : P new_user.

Lemma add_balance_every_user (k : string) (a : Z) (b : Bank) :
  (forall u, P u -> P (credit a u)) ->
  every_user P b -> every_user P (fst (add_balance k a b)).
Proof.
  intros Hcredit Hb. rewrite add_balance_unfold. cbn [fst].
  apply every_user_insert; [exact Hb |].
  apply Hcredit, every_user_or_new; assumption.
Qed.

Lemma committed_every_user (tx : Transaction) (paid : Z) (sender_sig receiver_sig : string)
    (b : Bank) (u : UserRecord) :
  (forall u', P u' -> P (credit paid u')) ->
  P (debit tx paid sender_sig receiver_sig u) ->
  every_user P b -> every_user P (committed tx paid sender_sig receiver_sig b u).
Proof.
  intros Hcredit Hdebit Hb. unfold committed. cbv zeta.
  assert (Hb1 : every_user P
                  {| users := <[sender_key tx := debit tx paid sender_sig receiver_sig u]>
                                (users b) |})
    by (apply every_user_insert; assumption).
  apply every_user_insert; [exact Hb1 |].
  apply Hcredit, every_user_or_new; assumption.
Qed.

End Preservation.

(** What one call does to a property of every record: a deposit credits, a
    payment that goes through debits the sender and credits the receiver,
    everything else leaves the ledger as it was. *)
Lemma run_call_every_user (P : UserRecord -> Prop) (c : Call) (b : Bank) :
  P new_user ->
  (forall k a, c = CallDeposit k a -> forall u, P u -> P (credit a u)) ->
  (forall tx sender_sig receiver_sig paid u,
      c = CallProcessPayment tx sender_sig receiver_sig ->
      validate_payment tx sender_sig receiver_sig b = (b, Ok paid) ->
      users b !! sender_key tx = Some u ->
      P (debit tx paid sender_sig receiver_sig u)
      /\ forall u', P u' -> P (credit paid u')) ->
  every_user P b -> every_user P (fst (run_call c b)).
Proof.
  intros Hnew Hdeposit Hpay Hb.
  destruct c as [k a | tx sender_sig receiver_sig | tx1 s1 r1 tx2 s2 r2];
    cbn [run_call].
  - unfold deposit. apply add_balance_every_user; eauto.
  - unfold bind, ret.
    destruct (process_payment tx sender_sig receiver_sig b) as [b' [ok | e]] eqn:Hp;
      cbn [fst].
    + apply process_payment_Ok in Hp as (paid & u & Hv & Hu & ->).
      destruct (Hpay _ _ _ _ _ eq_refl Hv Hu) as [Hdebit Hcredit].
      apply committed_every_user; assumption.
    + rewrite process_payment_unfold in Hp.
      destruct (snd (validate_payment tx sender_sig receiver_sig b)) as [paid | e0];
        [destruct (users b !! sender_key tx); [discriminate |] |];
        injection Hp as <- _; exact Hb.
  - rewrite report_double_spend_unfold. exact Hb.
Qed.

Lemma run_calls_cons (c : Call) (cs : list Call) (b : Bank) :
  run_calls (c :: cs) b =
  (fst (run_calls cs (fst (run_call c b))),
   snd (run_call c b) :: snd (run_calls cs (fst (run_call c b)))).
Proof.
  cbn [run_calls]. destruct (run_call c b) as [b' r]. cbn [fst snd].
  destruct (run_calls cs b') as [b'' rs]. reflexivity.
Qed.

Lemma run_call_histories_disjoint (c : Call) (b : Bank) :
  histories_disjoint b -> histories_disjoint (fst (run_call c b)).
Proof.
  intros Hb. apply run_call_every_user; [apply pairwise_disjoint_nil | auto | | exact Hb].
  intros tx sender_sig receiver_sig paid u _ Hv Hu.
  split; [| auto]. cbn [debit history].
  apply validate_payment_Ok in Hv as (_ & _ & _ & u0 & Hu0 & Hnone & _).
  assert (u0 = u) as -> by congruence.
  apply pairwise_disjoint_dict_set; [| apply (Hb _ _ Hu)].
  cbn [fst]. intros t Hin Hshare%share_coin_intersection_exists.
  rewrite (first_intersecting_None _ _ Hnone t Hin) in Hshare. discriminate.
Qed.

Lemma run_call_history_keyed (c : Call) (b : Bank) :
  history_keyed b -> history_keyed (fst (run_call c b)).
Proof.
  intros Hb. apply run_call_every_user; [| auto | | exact Hb].
  - cbn. split; [apply NoDup_nil_2 | constructor].
  - intros tx sender_sig receiver_sig paid u _ _ Hu.
    split; [| auto]. cbn [debit history].
    destruct (Hb _ _ Hu) as [Hnd Hkeys].
    split; [apply dict_set_NoDup, Hnd | apply dict_set_Forall; [reflexivity | exact Hkeys]].
Qed.

Lemma run_call_balances_nonneg (c : Call) (b : Bank) :
  call_constructed c -> deposit_nonneg c ->
  balances_nonneg b -> balances_nonneg (fst (run_call c b)).
Proof.
  intros Hc Hd Hb. apply run_call_every_user; [cbn; lia | | | exact Hb].
  - intros k a -> u Hu. cbn in Hd |- *. lia.
  - intros tx sender_sig receiver_sig paid u -> Hv Hu.
    apply validate_payment_Ok in Hv as (_ & Heval & _ & u0 & Hu0 & _ & _ & _ & Hfunds).
    assert (u0 = u) as -> by congruence.
    apply Constructed_wf in Hc as (_ & Hamount & _).
    pose proof (evaluate_nonneg _ _ _ _ Hamount Heval) as Hpaid.
    split; [cbn; lia |]. intros u' Hu'. cbn. lia.
Qed.

Lemma run_calls_invariant (I : Bank -> Prop) (ok : Call -> Prop) (cs : list Call) :
  (forall c b, ok c -> I b -> I (fst (run_call c b))) ->
  Forall ok cs -> forall b, I b -> I (fst (run_calls cs b)).
Proof.
  intros Hstep. induction 1 as [| c cs Hc Hcs IH]; intros b Hb; [exact Hb |].
  rewrite run_calls_cons. cbn [fst]. apply IH, Hstep; assumption.
Qed.

Lemma Bank_init_every_user (P : UserRecord -> Prop) : every_user P Bank_init.
Proof. intros k u. cbn. rewrite lookup_empty. discriminate. Qed.

(** C5. In every ledger reached from the empty bank by calls of [deposit],
    [process_payment] and [report_double_spend], whether they return or
    raise, the coin intervals [(sn - amount, sn]] of the checks stored in one
    user's history are pairwise disjoint (and the history holds one entry per
    key, filed under the check's [sn]). *)
Theorem histories_disjoint_reachable (cs : list Call) :
  histories_disjoint (fst (run_calls cs Bank_init))
  /\ history_keyed (fst (run_calls cs Bank_init)).
Proof.
  split.
  - apply (run_calls_invariant histories_disjoint (fun _ => True)).
    + intros c b _. apply run_call_histories_disjoint.
    + apply Forall_forall. auto.
    + apply Bank_init_every_user.
  - apply (run_calls_invariant history_keyed (fun _ => True)).
    + intros c b _. apply run_call_history_keyed.
    + apply Forall_forall. auto.
    + apply Bank_init_every_user.
Qed.

(** C4, for deposits of non-negative amounts. Starting from the empty
    bank, after any sequence of calls of [deposit], [process_payment] and
    [report_double_spend] that all return, in which every deposited amount is
    [>= 0] and every transaction paid came out of the constructor, every
    user's balance is [>= 0]. *)
Theorem balances_nonneg_after_calls (cs : list Call) (b : Bank)
    (outcomes : list (result unit)) :
  Forall call_constructed cs ->
  Forall deposit_nonneg cs ->
  run_calls cs Bank_init = (b, outcomes) ->
  Forall is_Ok outcomes ->
  balances_nonneg b.
Proof.
  intros Hc Hd Hrun _.
  replace b with (fst (run_calls cs Bank_init)) by (rewrite Hrun; reflexivity).
  apply (run_calls_invariant balances_nonneg
           (fun c => call_constructed c /\ deposit_nonneg c)).
  - intros c b0 [Hc0 Hd0]. apply run_call_balances_nonneg; assumption.
  - rewrite Forall_forall in *. intros c Hin. split; auto.
  - apply Bank_init_every_user.
Qed.

(** * Further properties of the bank *)

(** ** Conservation of coins *)

Lemma total_balance_insert (m : gmap string UserRecord) (k : string) (u : UserRecord) :
  total_balance {| users := <[k := u]> m |}
  = total_balance {| users := m |} - balance (default new_user (m !! k)) + balance u.
Proof.
  unfold total_balance. cbn [users].
  destruct (m !! k) as [u0 |] eqn:Hk; cbn [from_option id new_user balance].
  - rewrite <- (insert_delete_eq m k u).
    rewrite (map_fold_insert_L _ _ k u (delete k m));
      [| intros; lia | apply lookup_delete_eq].
    rewrite (map_fold_delete_L _ _ k u0 m); [lia | intros; lia | exact Hk].
  - rewrite map_fold_insert_L; [lia | intros; lia | exact Hk].
Qed.

Lemma total_balance_add_balance (k : string) (a : Z) (b : Bank) :
  total_balance (fst (add_balance k a b)) = total_balance b + a.
Proof.
  rewrite add_balance_unfold. cbn [fst]. rewrite total_balance_insert.
  unfold user_or_new. destruct b as [m]. cbn [users credit balance from_option id].
  lia.
Qed.

Lemma total_balance_committed (tx : Transaction) (paid : Z) (sender_sig receiver_sig : string)
    (b : Bank) (u : UserRecord) :
  users b !! sender_key tx = Some u ->
  total_balance (committed tx paid sender_sig receiver_sig b u) = total_balance b.
Proof.
  intros Hu. unfold committed. cbv zeta. rewrite total_balance_insert.
  unfold user_or_new. cbn [users credit balance].
  rewrite total_balance_insert, Hu. destruct b as [m].
  cbn [users from_option id debit balance]. ring.
Qed.

Lemma run_call_total_balance (c : Call) (b : Bank) :
  total_balance (fst (run_call c b))
  = total_balance b + match c with
                      | CallDeposit _ amount_ => amount_
                      | _ => 0
                      end.
Proof.
  destruct c as [k a | tx sender_sig receiver_sig | tx1 s1 r1 tx2 s2 r2];
    cbn [run_call].
  - unfold deposit. apply total_balance_add_balance.
  - unfold bind, ret. rewrite process_payment_unfold.
    destruct (validate_payment tx sender_sig receiver_sig b) as [b0 [paid | e]] eqn:Hv;
      cbn [snd fst]; [| lia].
    destruct (validate_payment_Ok _ _ _ _ _ _ Hv) as (_ & _ & _ & u & Hu & _).
    rewrite Hu. cbn [fst]. rewrite (total_balance_committed _ _ _ _ _ _ Hu). lia.
  - rewrite report_double_spend_unfold. cbn [fst]. lia.
Qed.

Lemma run_calls_total_balance (cs : list Call) (b : Bank) :
  total_balance (fst (run_calls cs b)) = total_balance b + deposited cs.
Proof.
  revert b. induction cs as [| c cs IH]; intros b; [cbn; lia |].
  rewrite run_calls_cons. cbn [fst]. rewrite IH, run_call_total_balance.
  destruct c; cbn [deposited]; lia.
Qed.

(** X1. Coins are conserved: after any sequence of calls on the empty bank,
    whether they return or raise, the balances of all users add up to the
    sum of the amounts deposited. A payment only moves coins. *)
Theorem balances_sum_to_deposits (cs : list Call) :
  total_balance (ledger_after cs) = deposited cs.
Proof.
  unfold ledger_after. rewrite run_calls_total_balance.
  unfold total_balance, Bank_init. cbn [users]. rewrite map_fold_empty. lia.
Qed.

(** ** What every record keeps *)

Lemma run_calls_every_user (P : UserRecord -> Prop) (cs : list Call) :
  P new_user ->
  (forall a u, 0 <= a -> P u -> P (credit a u)) ->
  (forall tx paid sender_sig receiver_sig u,
      0 <= paid <= balance u -> P u -> P (debit tx paid sender_sig receiver_sig u)) ->
  Forall call_constructed cs -> Forall deposit_nonneg cs ->
  forall b, every_user P b -> every_user P (fst (run_calls cs b)).
Proof.
  intros Hnew Hcredit Hdebit Hc Hd.
  apply (run_calls_invariant (every_user P)
           (fun c => call_constructed c /\ deposit_nonneg c)).
  - intros c b [Hc0 Hd0] Hb. apply run_call_every_user; [exact Hnew | | | exact Hb].
    + intros k a -> u Hu. apply Hcredit; [exact Hd0 | exact Hu].
    + intros tx sender_sig receiver_sig paid u -> Hv Hu.
      apply validate_payment_Ok in Hv as (_ & Heval & _ & u0 & Hu0 & _ & _ & _ & Hfunds).
      assert (u0 = u) as -> by congruence.
      apply Constructed_wf in Hc0 as (_ & Hamount & _).
      pose proof (evaluate_nonneg _ _ _ _ Hamount Heval) as Hpaid.
      split; [apply Hdebit; [lia | apply (Hb _ _ Hu)] |].
      intros u' Hu'. apply Hcredit; assumption.
  - rewrite Forall_forall in *. intros c Hin. split; auto.
Qed.

(** X2. No user can spend more than it received: after any sequence of
    calls on the empty bank in which every transaction paid came out of the
    constructor, every record has [balance <= total_received], whatever the
    amounts deposited and whichever calls raised. *)
Theorem balance_below_total_received (cs : list Call) :
  Forall call_constructed cs ->
  every_user (fun u => balance u <= total_received u) (ledger_after cs).
Proof.
  intros Hc. unfold ledger_after.
  apply (run_calls_invariant (every_user (fun u => balance u <= total_received u))
           call_constructed); [| exact Hc | apply Bank_init_every_user].
  intros c b Hc0 Hb. apply run_call_every_user; [cbn; lia | | | exact Hb].
  - intros k a _ u Hu. cbn. lia.
  - intros tx sender_sig receiver_sig paid u -> Hv Hu.
    apply validate_payment_Ok in Hv as (_ & Heval & _).
    apply Constructed_wf in Hc0 as (_ & Hamount & _).
    pose proof (evaluate_nonneg _ _ _ _ Hamount Heval) as Hpaid.
    pose proof (Hb _ _ Hu) as Hle. cbn in Hle.
    split; [cbn; lia |]. intros u' Hu'. cbn. lia.
Qed.

(** One call keeps every record, and takes nothing off its [total_received]. *)
Lemma run_call_total_received (c : Call) (b : Bank) (k : string) (u : UserRecord) :
  call_constructed c -> deposit_nonneg c ->
  users b !! k = Some u ->
  exists u', users (fst (run_call c b)) !! k = Some u'
             /\ total_received u <= total_received u'.
Proof.
  intros Hc Hd Hk.
  destruct c as [k0 a | tx sender_sig receiver_sig | tx1 s1 r1 tx2 s2 r2];
    cbn [run_call].
  - unfold deposit. rewrite add_balance_unfold. cbn [fst users].
    destruct (decide (k0 = k)) as [-> | Hne].
    + rewrite lookup_insert_eq. eexists. split; [reflexivity |].
      unfold user_or_new. rewrite Hk. cbn in Hd |- *. lia.
    + rewrite lookup_insert_ne by exact Hne. exists u. split; [exact Hk | lia].
  - unfold bind, ret. rewrite process_payment_unfold.
    destruct (validate_payment tx sender_sig receiver_sig b) as [b0 [paid | e]] eqn:Hv;
      cbn [snd fst]; [| exists u; split; [exact Hk | lia]].
    destruct (validate_payment_Ok _ _ _ _ _ _ Hv) as (_ & Heval & _ & us & Hus & _).
    rewrite Hus. cbn [fst]. cbn in Hc.
    apply Constructed_wf in Hc as (_ & Hamount & _).
    pose proof (evaluate_nonneg _ _ _ _ Hamount Heval) as Hpaid.
    unfold committed, user_or_new. cbn [users].
    destruct (decide (receiver_key tx = k)) as [Hr | Hr].
    + rewrite Hr, lookup_insert_eq. eexists. split; [reflexivity |].
      destruct (decide (sender_key tx = k)) as [Hs | Hs].
      * rewrite Hs, lookup_insert_eq. rewrite Hs in Hus.
        assert (us = u) as -> by congruence. cbn. lia.
      * rewrite lookup_insert_ne by exact Hs. rewrite Hk. cbn. lia.
    + rewrite lookup_insert_ne by exact Hr.
      destruct (decide (sender_key tx = k)) as [Hs | Hs].
      * rewrite Hs, lookup_insert_eq. rewrite Hs in Hus.
        assert (us = u) as -> by congruence. eexists. split; [reflexivity | cbn; lia].
      * rewrite lookup_insert_ne by exact Hs. exists u. split; [exact Hk | lia].
  - rewrite report_double_spend_unfold. cbn [fst]. exists u. split; [exact Hk | lia].
Qed.

(** X3. Records are never destroyed and [total_received] never decreases:
    whatever the ledger, after any further calls (deposits of amounts [>= 0],
    payments of constructed transactions, reports; returning or raising)
    every user that had a record still has one, with a [total_received] at
    least as large. *)
Theorem total_received_monotone (cs : list Call) (b : Bank) (k : string) (u : UserRecord) :
  Forall call_constructed cs -> Forall deposit_nonneg cs ->
  users b !! k = Some u ->
  exists u', users (fst (run_calls cs b)) !! k = Some u'
             /\ total_received u <= total_received u'.
Proof.
  intros Hc. revert b u. induction Hc as [| c cs Hc0 Hc IH]; intros b u Hd Hk.
  - exists u. split; [exact Hk | lia].
  - apply Forall_cons in Hd as [Hd0 Hd]. rewrite run_calls_cons. cbn [fst].
    destruct (run_call_total_received c b k u Hc0 Hd0 Hk) as (u1 & Hk1 & Hle1).
    destruct (IH _ _ Hd Hk1) as (u2 & Hk2 & Hle2).
    exists u2. split; [exact Hk2 | lia].
Qed.

(** ** What the bank keeps of the checks it stored *)

Lemma every_record_insert (P : string -> UserRecord -> Prop) (b : Bank)
    (k : string) (u : UserRecord) :
  every_record P b -> P k u -> every_record P {| users := <[k := u]> (users b) |}.
Proof.
  intros Hb Hu k' u'. cbn [users]. rewrite lookup_insert.
  case_decide as Hk; [intros [= <-]; rewrite <- Hk; exact Hu | apply Hb].
Qed.

Lemma every_record_or_new (P : string -> UserRecord -> Prop) (b : Bank) (k : string) :
  every_record P b -> P k new_user -> P k (user_or_new b k).
Proof.
  intros Hb Hnew. unfold user_or_new.
  destruct (users b !! k) as [u |] eqn:Hu; cbn [from_option id];
    [apply (Hb k u Hu) | exact Hnew].
Qed.

Lemma run_call_every_record (P : string -> UserRecord -> Prop) (c : Call) (b : Bank) :
  (forall k, P k new_user) ->
  (forall k a u, c = CallDeposit k a -> P k u -> P k (credit a u)) ->
  (forall tx sender_sig receiver_sig paid u,
      c = CallProcessPayment tx sender_sig receiver_sig ->
      validate_payment tx sender_sig receiver_sig b = (b, Ok paid) ->
      users b !! sender_key tx = Some u ->
      P (sender_key tx) u ->
      P (sender_key tx) (debit tx paid sender_sig receiver_sig u)
      /\ forall u', P (receiver_key tx) u' -> P (receiver_key tx) (credit paid u')) ->
  every_record P b -> every_record P (fst (run_call c b)).
Proof.
  intros Hnew Hdeposit Hpay Hb.
  destruct c as [k a | tx sender_sig receiver_sig | tx1 s1 r1 tx2 s2 r2];
    cbn [run_call].
  - unfold deposit. rewrite add_balance_unfold. cbn [fst].
    apply every_record_insert; [exact Hb |].
    apply (Hdeposit k a _ eq_refl), every_record_or_new; auto.
  - unfold bind, ret. rewrite process_payment_unfold.
    destruct (validate_payment tx sender_sig receiver_sig b) as [b0 [paid | e]] eqn:Hv;
      cbn [snd fst]; [| exact Hb].
    destruct (validate_payment_Ok _ _ _ _ _ _ Hv) as (-> & _ & _ & u & Hu & _).
    rewrite Hu. cbn [fst].
    destruct (Hpay _ _ _ _ _ eq_refl Hv Hu (Hb _ _ Hu)) as [Hdebit Hcredit].
    unfold committed. cbv zeta.
    assert (Hb1 : every_record P
                    {| users := <[sender_key tx := debit tx paid sender_sig receiver_sig u]>
                                  (users b) |})
      by (apply every_record_insert; assumption).
    apply every_record_insert; [exact Hb1 |].
    apply Hcredit, every_record_or_new; auto.
  - rewrite report_double_spend_unfold. exact Hb.
Qed.

Lemma run_call_stored_checked (c : Call) (b : Bank) :
  every_record stored_checked b -> every_record stored_checked (fst (run_call c b)).
Proof.
  apply run_call_every_record.
  - intros k. constructor.
  - intros k a u _ Hu. exact Hu.
  - intros tx sender_sig receiver_sig paid u _ Hv Hu Hstored.
    split; [| intros u' Hu'; exact Hu'].
    apply validate_payment_Ok in Hv as (_ & Heval & Hpaid & u0 & _ & _ & Hlo & _).
    unfold stored_checked. cbn [debit history].
    apply dict_set_Forall; [| exact Hstored].
    cbn [fst snd]. repeat split; [exact Hlo |]. exists paid. auto.
Qed.

Lemma run_calls_stored_checked (cs : list Call) (b : Bank) :
  every_record stored_checked b -> every_record stored_checked (fst (run_calls cs b)).
Proof.
  apply (run_calls_invariant (every_record stored_checked) (fun _ => True)).
  - intros c b0 _. apply run_call_stored_checked.
  - apply Forall_forall. auto.
Qed.

(** X4. Every check in a history was checked: after any sequence of calls
    on the empty bank, each stored entry is filed under its sender's key and
    under its own [sn], claims no coin below coin 1, and evaluates to a
    non-zero payable amount under the two signatures stored with it. *)
Theorem stored_checks_were_checked (cs : list Call) :
  every_record stored_checked (ledger_after cs).
Proof.
  unfold ledger_after. apply run_calls_stored_checked.
  intros k u. cbn. rewrite lookup_empty. discriminate.
Qed.

Lemma history_txs_dict_set_Forall (P : Transaction -> Prop) (k : Z) (e : HistoryEntry)
    (h : list (Z * HistoryEntry)) :
  P (fst (fst e)) -> Forall P (history_txs h) -> Forall P (history_txs (dict_set k e h)).
Proof.
  intros He Hh. apply Forall_forall. intros t Hin%list_elem_of_In.
  apply history_txs_dict_set_In in Hin as [-> | Hin]; [exact He |].
  rewrite Forall_forall in Hh. apply Hh, list_elem_of_In, Hin.
Qed.

Lemma ledger_after_within_total_received (cs : list Call) :
  Forall call_constructed cs -> Forall deposit_nonneg cs ->
  every_user (fun u => Forall (fun t => sn t <= total_received u)
                         (history_txs (history u)))
    (ledger_after cs).
Proof.
  intros Hc Hd. unfold ledger_after.
  apply (run_calls_invariant
           (every_user (fun u => Forall (fun t => sn t <= total_received u)
                                  (history_txs (history u))))
           (fun c => call_constructed c /\ deposit_nonneg c));
    [| rewrite Forall_forall in *; intros c Hin; split; auto
     | apply Bank_init_every_user].
  intros c b [Hc0 Hd0] Hb. apply run_call_every_user; [constructor | | | exact Hb].
  - intros k a -> u Hu. cbn [credit history total_received].
    eapply Forall_impl; [exact Hu |]. cbn beta. cbn in Hd0. intros t Ht. lia.
  - intros tx sender_sig receiver_sig paid u -> Hv Hu.
    apply validate_payment_Ok in Hv as (_ & Heval & _ & u0 & Hu0 & _ & _ & Hhi & _).
    assert (u0 = u) as -> by congruence.
    apply Constructed_wf in Hc0 as (_ & Hamount & _).
    pose proof (evaluate_nonneg _ _ _ _ Hamount Heval) as Hpaid.
    split.
    + cbn [debit history total_received].
      apply history_txs_dict_set_Forall; [exact Hhi | apply (Hb _ _ Hu)].
    + intros u' Hu'. cbn [credit history total_received].
      eapply Forall_impl; [exact Hu' |]. cbn beta. intros t Ht. lia.
Qed.

Lemma run_call_stored_Constructed (c : Call) (b : Bank) :
  call_constructed c ->
  every_user (fun u => Forall Constructed (history_txs (history u))) b ->
  every_user (fun u => Forall Constructed (history_txs (history u))) (fst (run_call c b)).
Proof.
  intros Hc Hb. apply run_call_every_user; [constructor | auto | | exact Hb].
  intros tx sender_sig receiver_sig paid u -> _ Hu.
  split; [| auto]. cbn [debit history].
  apply history_txs_dict_set_Forall; [exact Hc | apply (Hb _ _ Hu)].
Qed.

(** A ledger whose histories are keyed by [sn] and hold constructed checks. *)
Lemma ledger_after_kept (cs : list Call) :
  Forall call_constructed cs ->
  history_keyed (ledger_after cs)
  /\ histories_disjoint (ledger_after cs)
  /\ every_user (fun u => Forall Constructed (history_txs (history u))) (ledger_after cs).
Proof.
  intros Hc. unfold ledger_after. split; [| split].
  - apply (run_calls_invariant history_keyed (fun _ => True));
      [intros c b _; apply run_call_history_keyed | apply Forall_forall; auto
       | apply Bank_init_every_user].
  - apply (run_calls_invariant histories_disjoint (fun _ => True));
      [intros c b _; apply run_call_histories_disjoint | apply Forall_forall; auto
       | apply Bank_init_every_user].
  - apply (run_calls_invariant _ call_constructed);
      [intros c b; apply run_call_stored_Constructed | exact Hc
       | apply Bank_init_every_user].
Qed.

Lemma dict_set_fresh {V : Type} (k : Z) (v : V) (d : list (Z * V)) :
  ~ In k (map fst d) -> dict_set k v d = (d ++ [(k, v)])%list.
Proof.
  induction d as [| [k' v'] d IH]; intros Hk; [reflexivity |].
  cbn [dict_set]. cbn [map fst In] in Hk.
  destruct (Z.eqb_spec k' k) as [-> | Hne]; [tauto |].
  cbn [app]. f_equal. apply IH. tauto.
Qed.

(** A check that passed the overlap scan has a fresh [sn]. *)
Lemma validated_sn_fresh (tx : Transaction) (u : UserRecord) :
  1 <= amount tx ->
  NoDup (map fst (history u))
  /\ Forall (fun kv => fst kv = sn (fst (fst (snd kv)))) (history u) ->
  Forall Constructed (history_txs (history u)) ->
  first_intersecting tx (history_txs (history u)) = None ->
  ~ In (sn tx) (map fst (history u)).
Proof.
  intros Hamount [_ Hkeys] Hcons Hnone (kv & Hkey & Hin)%in_map_iff.
  rewrite Forall_forall in Hkeys. rewrite Forall_forall in Hcons.
  pose proof (Hkeys kv (proj2 (list_elem_of_In _ _) Hin)) as Hsn.
  assert (Ht : In (fst (fst (snd kv))) (history_txs (history u)))
    by (apply in_map_iff; exists kv; auto).
  pose proof (Hcons _ (proj2 (list_elem_of_In _ _) Ht)) as (_ & Ha & _)%Constructed_wf.
  assert (Hfalse := first_intersecting_None _ _ Hnone _ Ht).
  rewrite share_coin_intersection_exists in Hfalse; [discriminate |].
  exists (sn tx). unfold in_interval, HistoryEntry in *. lia.
Qed.





(** ** Evaluation and equality of transactions *)

Lemma payable_float_shape (amount_ X : Z) :
  0 <= X ->
  payable_float amount_ X mod MP = 0
  /\ Z.abs (payable_float amount_ X - amount_) < MP.
Proof.
  intros HX. unfold payable_float, MP.
  pose proof (Z.div_mod amount_ 10 ltac:(lia)) as Hdm.
  pose proof (Z.mod_pos_bound amount_ 10 ltac:(lia)) as Hr.
  destruct (Z.eq_dec (amount_ mod 10) 0) as [H0 | H0].
  - rewrite H0. change (float_threshold 0) with 0.
    destruct (Z.ltb_spec X 0); [lia |]. rewrite Z.add_0_r, Z.mod_mul by lia. lia.
  - destruct (X <? float_threshold (amount_ mod 10)).
    + replace (amount_ / 10 * 10 + 10) with ((amount_ / 10 + 1) * 10) by lia.
      rewrite Z.mod_mul by lia. lia.
    + rewrite Z.add_0_r, Z.mod_mul by lia. lia.
Qed.

(** X7. What a check pays is a multiple of [M = 10] less than [M] away
    from its amount; so a check of [M] coins or more is always payable:
    [process_payment] never raises [ErrNotPayable] for it. *)
Theorem payable_within_MP_of_amount (tx : Transaction) (sender_sig receiver_sig : string) :
  (forall paid, evaluate tx sender_sig receiver_sig = Ok paid ->
                paid mod MP = 0 /\ Z.abs (paid - amount tx) < MP)
  /\ (MP <= amount tx ->
      forall b, snd (process_payment tx sender_sig receiver_sig b) <> Raise ErrNotPayable).
Proof.
  assert (Hshape : forall paid, evaluate tx sender_sig receiver_sig = Ok paid ->
                     paid mod MP = 0 /\ Z.abs (paid - amount tx) < MP).
  { intros paid (beta & _ & ->)%evaluate_Ok_inv.
    apply payable_float_shape, be_value_range. }
  split; [exact Hshape |].
  intros Hbig b. rewrite process_payment_outcome, validate_payment_unfold. cbn [snd].
  destruct (evaluate tx sender_sig receiver_sig) as [paid | e] eqn:Heval.
  - destruct (Hshape paid eq_refl) as [_ Hnear].
    destruct (Z.eqb_spec paid 0) as [-> | _]; [lia |].
    destruct (users b !! sender_key tx) as [u |]; [| discriminate].
    destruct (first_intersecting tx (history_txs (history u))) as [t |].
    { destruct (tx_eq tx t); discriminate. }
    destruct ((sn tx - amount tx <? 0) || (sn tx >? total_received u)); [discriminate |].
    destruct (balance u <? paid); discriminate.
  - apply evaluate_Raise in Heval. intros [= ->].
    destruct Heval as [? | [? | ?]]; discriminate.
Qed.

(** X8. Two transactions the constructor returned are [==] exactly when
    they were built from the same five arguments, the timestamps compared
    as integers: the decimal rendering of the timestamp loses nothing. *)
Theorem constructed_eq_iff_same_arguments
    (sn1 amount1 : Z) (sk1 rk1 : string) (ts1 : Z)
    (sn2 amount2 : Z) (sk2 rk2 : string) (ts2 : Z) (tx1 tx2 : Transaction) :
  Transaction_init sn1 amount1 sk1 rk1 ts1 = Ok tx1 ->
  Transaction_init sn2 amount2 sk2 rk2 ts2 = Ok tx2 ->
  (tx_eq tx1 tx2 = true
   <-> sn1 = sn2 /\ amount1 = amount2 /\ sk1 = sk2 /\ rk1 = rk2 /\ ts1 = ts2).
Proof.
  intros (-> & _)%Transaction_init_Ok (-> & _)%Transaction_init_Ok.
  rewrite tx_eq_true. split.
  - intros [= -> -> -> -> Hts]. apply (inj pretty) in Hts. auto.
  - intros (-> & -> & -> & -> & ->). reflexivity.
Qed.

(** ** What a payment does, and what happens to it afterwards *)

Lemma user_balance_snd (k : string) (b : Bank) :
  snd (user_balance k b) = Ok (balance (user_or_new b k)).
Proof.
  unfold user_balance, user_or_new. unfold_bank.
  destruct (users b !! k) as [u |] eqn:Hu; [rewrite Hu |]; reflexivity.
Qed.

(** X9. A payment that goes through moves exactly the payable amount:
    [process_payment] returns [True], and [user_balance] then shows the
    sender's balance lowered and the receiver's raised by what [evaluate]
    returned (a sender paying itself ends where it started), every other
    balance as before. *)
Theorem process_payment_moves_paid (tx : Transaction) (sender_sig receiver_sig : string)
    (b b' : Bank) (ok : bool) :
  process_payment tx sender_sig receiver_sig b = (b', Ok ok) ->
  ok = true
  /\ exists paid,
       evaluate tx sender_sig receiver_sig = Ok paid /\ paid <> 0
       /\ forall k, exists before,
            snd (user_balance k b) = Ok before
            /\ snd (user_balance k b')
               = Ok (before - (if decide (k = sender_key tx) then paid else 0)
                            + (if decide (k = receiver_key tx) then paid else 0)).
Proof.
  intros Hp.
  assert (Hok : ok = true).
  { rewrite process_payment_unfold in Hp.
    destruct (snd (validate_payment tx sender_sig receiver_sig b));
      [destruct (users b !! sender_key tx) |]; congruence. }
  split; [exact Hok |].
  apply process_payment_Ok in Hp as (paid & u & Hv & Hu & ->).
  apply validate_payment_Ok in Hv as (_ & Heval & Hpaid & _).
  exists paid. split; [exact Heval |]. split; [exact Hpaid |].
  intros k. exists (balance (user_or_new b k)). split; [apply user_balance_snd |].
  rewrite user_balance_snd. f_equal.
  unfold committed, user_or_new. cbn [users].
  destruct (decide (k = receiver_key tx)) as [-> | Hr].
  - rewrite lookup_insert_eq. cbn [from_option id credit balance].
    destruct (decide (receiver_key tx = sender_key tx)) as [Hs | Hs].
    + rewrite Hs, lookup_insert_eq, Hu. cbn. lia.
    + rewrite lookup_insert_ne by congruence.
      destruct (users b !! receiver_key tx); cbn; lia.
  - rewrite lookup_insert_ne by congruence.
    destruct (decide (k = sender_key tx)) as [-> | Hs].
    + rewrite lookup_insert_eq, Hu. cbn. lia.
    + rewrite lookup_insert_ne by congruence.
      destruct (users b !! k); cbn; lia.
Qed.

Lemma intersection_exists_self (tx : Transaction) :
  1 <= amount tx -> intersection_exists tx tx = true.
Proof.
  intros Ha. rewrite intersection_exists_snd_lo. unfold interval_lo, interval_hi.
  rewrite Z.leb_refl. apply Z.leb_le. lia.
Qed.

Lemma first_intersecting_dict_set_self (tx : Transaction) (sender_sig receiver_sig : string)
    (k : Z) (h : list (Z * HistoryEntry)) :
  intersection_exists tx tx = true ->
  first_intersecting tx (history_txs h) = None ->
  first_intersecting tx (history_txs (dict_set k (tx, sender_sig, receiver_sig) h))
  = Some tx.
Proof.
  intros Hself. induction h as [| [k' [[t' s'] r']] h IH]; intros Hnone.
  - cbn. rewrite Hself. reflexivity.
  - cbn [history_txs map first_intersecting fst snd] in Hnone.
    destruct (intersection_exists tx t') eqn:Ht'; [discriminate |].
    cbn [dict_set]. destruct (k' =? k); cbn [history_txs map first_intersecting fst snd].
    + rewrite Hself. reflexivity.
    + rewrite Ht'. apply IH, Hnone.
Qed.

Lemma committed_sender (tx : Transaction) (paid : Z) (sender_sig receiver_sig : string)
    (b : Bank) (u : UserRecord) :
  exists u', users (committed tx paid sender_sig receiver_sig b u) !! sender_key tx = Some u'
             /\ history u'
                = dict_set (sn tx) (tx, sender_sig, receiver_sig) (history u).
Proof.
  unfold committed, user_or_new. cbn [users].
  destruct (decide (receiver_key tx = sender_key tx)) as [Hs | Hs].
  - rewrite Hs, !lookup_insert_eq. eexists. split; reflexivity.
  - rewrite lookup_insert_ne, lookup_insert_eq by exact Hs.
    eexists. split; reflexivity.
Qed.

(** X10. A check is paid once: after [process_payment] accepted a check of
    amount [>= 1], presenting the same check again (under any signatures
    that make it payable) raises [ErrAlreadyProcessed] and leaves the ledger
    as the first payment left it. *)
Theorem process_payment_replay (tx : Transaction) (sender_sig receiver_sig : string)
    (b b' : Bank) (ok : bool) (sender_sig' receiver_sig' : string) (paid' : Z) :
  1 <= amount tx ->
  process_payment tx sender_sig receiver_sig b = (b', Ok ok) ->
  evaluate tx sender_sig' receiver_sig' = Ok paid' -> paid' <> 0 ->
  process_payment tx sender_sig' receiver_sig' b' = (b', Raise ErrAlreadyProcessed).
Proof.
  intros Ha Hp Heval' Hpaid'.
  apply process_payment_Ok in Hp as (paid & u & Hv & Hu & ->).
  apply validate_payment_Ok in Hv as (_ & _ & _ & u0 & Hu0 & Hnone & _).
  assert (u0 = u) as -> by congruence.
  destruct (committed_sender tx paid sender_sig receiver_sig b u) as (u' & Hu' & Hh').
  rewrite process_payment_unfold, validate_payment_unfold. cbn [snd].
  apply Z.eqb_neq in Hpaid'. rewrite Heval', Hpaid', Hu', Hh'.
  rewrite first_intersecting_dict_set_self
    by (try apply intersection_exists_self; assumption).
  rewrite (proj2 (tx_eq_true tx tx) eq_refl). reflexivity.
Qed.

(** ** Overlap in a ledger the bank built *)

Lemma first_intersecting_Some_inv (tx : Transaction) (txs : list Transaction)
    (t : Transaction) :
  first_intersecting tx txs = Some t ->
  In t txs /\ intersection_exists tx t = true.
Proof.
  induction txs as [| t0 txs IH]; [discriminate |].
  cbn [first_intersecting].
  destruct (intersection_exists tx t0) eqn:H0.
  - intros [= <-]. split; [left; reflexivity | exact H0].
  - intros Hrest. destruct (IH Hrest). split; [right |]; assumption.
Qed.

(** Among pairwise disjoint stored checks, the scan for a stored check finds
    that check. *)
Lemma first_intersecting_stored (tx : Transaction) (txs : list Transaction) :
  pairwise_disjoint txs -> Forall Constructed txs -> In tx txs ->
  first_intersecting tx txs = Some tx.
Proof.
  intros Hpd Hcons Hin.
  rewrite Forall_forall in Hcons.
  pose proof (Hcons _ (proj2 (list_elem_of_In _ _) Hin)) as (_ & Ha & _)%Constructed_wf.
  destruct (first_intersecting_Some tx txs tx Hin (intersection_exists_self _ Ha))
    as (t & Ht).
  rewrite Ht. f_equal.
  apply first_intersecting_Some_inv in Ht as [Hint Hmeet].
  pose proof (Hcons _ (proj2 (list_elem_of_In _ _) Hint)) as (_ & Hat & _)%Constructed_wf.
  apply list_elem_of_In, list_elem_of_lookup in Hin as (i & Hi).
  apply list_elem_of_In, list_elem_of_lookup in Hint as (j & Hj).
  destruct (decide (i = j)) as [-> | Hij]; [congruence |].
  exfalso. apply (Hpd i j tx t Hij Hi Hj).
  apply intersection_exists_share_coin; assumption.
Qed.

(** X11. In a ledger the bank built from constructed transactions, the two
    overlap errors tell replay from fraud. For a constructed check:
    [process_payment] raises [ErrAlreadyProcessed] exactly when the check is
    payable and is itself stored in its sender's history, and raises
    [ErrDoubleSpend] exactly when it is payable, is not stored, and shares a
    coin with a check stored in its sender's history. *)
Theorem overlap_errors_in_built_ledger (cs : list Call) (tx : Transaction)
    (sender_sig receiver_sig : string) :
  Forall call_constructed cs -> Constructed tx ->
  let b := ledger_after cs in
  let payable := exists paid, evaluate tx sender_sig receiver_sig = Ok paid /\ paid <> 0 in
  (snd (process_payment tx sender_sig receiver_sig b) = Raise ErrAlreadyProcessed
   <-> payable
       /\ exists u, users b !! sender_key tx = Some u
                    /\ In tx (history_txs (history u)))
  /\ (snd (process_payment tx sender_sig receiver_sig b) = Raise ErrDoubleSpend
      <-> payable
          /\ exists u, users b !! sender_key tx = Some u
                       /\ ~ In tx (history_txs (history u))
                       /\ exists t, In t (history_txs (history u)) /\ share_coin tx t).
Proof.
  intros Hcs Htx b payable. subst payable.
  destruct (ledger_after_kept cs Hcs) as (_ & Hdisj & Hcons). fold b in Hdisj, Hcons.
  pose proof (Constructed_wf _ Htx) as (_ & Ha & _).
  rewrite process_payment_outcome, validate_payment_unfold. cbn [snd].
  destruct (evaluate tx sender_sig receiver_sig) as [paid | e] eqn:Heval.
  2: { apply evaluate_Raise in Heval.
       split; (split; [intros [= ->]; destruct Heval as [? | [? | ?]]; discriminate
                      | intros [(p & [= ] & _) _]]). }
  destruct (Z.eqb_spec paid 0) as [-> | Hpaid].
  { split; (split; [discriminate | intros [(p & [= <-] & Hp) _]; congruence]). }
  destruct (users b !! sender_key tx) as [u |] eqn:Hu.
  2: { split; (split; [discriminate | intros [_ (u & [= ] & _)]]). }
  pose proof (Hdisj _ _ Hu) as Hpd. pose proof (Hcons _ _ Hu) as Hcu. cbn beta in Hpd, Hcu.
  destruct (first_intersecting tx (history_txs (history u))) as [t |] eqn:Hfirst.
  - pose proof (first_intersecting_Some_inv _ _ _ Hfirst) as [Hint Hmeet].
    destruct (tx_eq tx t) eqn:Heq.
    + apply tx_eq_true in Heq as <-.
      split; split.
      * intros _. split; [eauto | exists u; auto].
      * reflexivity.
      * discriminate.
      * intros (_ & u0 & [= <-] & Hnot & _). contradiction.
    + assert (Hnot : ~ In tx (history_txs (history u))).
      { intros Hin. rewrite (first_intersecting_stored _ _ Hpd Hcu Hin) in Hfirst.
        injection Hfirst as <-. rewrite (proj2 (tx_eq_true tx tx) eq_refl) in Heq.
        discriminate. }
      split; split.
      * discriminate.
      * intros (_ & u0 & [= <-] & Hin). contradiction.
      * intros _. split; [eauto |]. exists u. split; [reflexivity |].
        split; [exact Hnot |]. exists t. split; [exact Hint |].
        rewrite Forall_forall in Hcu.
        pose proof (Hcu _ (proj2 (list_elem_of_In _ _) Hint)) as (_ & Hat & _)%Constructed_wf.
        apply intersection_exists_share_coin; assumption.
      * reflexivity.
  - assert (Hfresh : forall t, In t (history_txs (history u)) -> ~ share_coin tx t).
    { intros t Hin Hs%share_coin_intersection_exists.
      rewrite (first_intersecting_None _ _ Hfirst t Hin) in Hs. discriminate. }
    assert (Hnone : forall e, e = ErrAlreadyProcessed \/ e = ErrDoubleSpend ->
              match
                (if (sn tx - amount tx <? 0) || (sn tx >? total_received u)
                 then Raise ErrInvalidCoinInterval
                 else if balance u <? paid then Raise ErrNotEnoughFunds else Ok paid)
              with
              | Ok _ => Ok true
              | Raise e0 => Raise e0
              end <> Raise e).
    { intros e He.
      destruct ((sn tx - amount tx <? 0) || (sn tx >? total_received u));
        [destruct He as [-> | ->]; discriminate |].
      destruct (balance u <? paid); destruct He as [-> | ->]; discriminate. }
    split; split.
    + intros Hr. exfalso. apply (Hnone ErrAlreadyProcessed); auto.
    + intros (_ & u0 & [= <-] & Hin). exfalso.
      apply (Hfresh tx Hin). exists (sn tx). unfold in_interval. lia.
    + intros Hr. exfalso. apply (Hnone ErrDoubleSpend); auto.
    + intros (_ & u0 & [= <-] & _ & t & Hin & Hs). exfalso. apply (Hfresh t Hin Hs).
Qed.

(** X12. A double spend caught at payment can be reported: when
    [process_payment] raises [ErrDoubleSpend] in a ledger reached from the
    empty bank, the sender's history holds an entry whose check and
    signatures, handed to [report_double_spend] with the refused check,
    raise [ErrDoubleSpend] too. *)
Theorem double_spend_caught_is_reportable (cs : list Call) (tx : Transaction)
    (sender_sig receiver_sig : string) :
  snd (process_payment tx sender_sig receiver_sig (ledger_after cs)) = Raise ErrDoubleSpend ->
  exists (u : UserRecord) (t : Transaction) (sender_sig_t receiver_sig_t : string),
    users (ledger_after cs) !! sender_key tx = Some u
    /\ In (sn t, (t, sender_sig_t, receiver_sig_t)) (history u)
    /\ snd (report_double_spend tx sender_sig receiver_sig
              t sender_sig_t receiver_sig_t (ledger_after cs))
       = Raise ErrDoubleSpend.
Proof.
  assert (Hstored : every_record stored_checked (ledger_after cs)).
  { unfold ledger_after. apply run_calls_stored_checked.
    intros k u. cbn. rewrite lookup_empty. discriminate. }
  rewrite process_payment_outcome, validate_payment_unfold. cbn [snd].
  destruct (evaluate tx sender_sig receiver_sig) as [paid | e] eqn:Heval.
  2: { apply evaluate_Raise in Heval. intros [= ->].
       destruct Heval as [? | [? | ?]]; discriminate. }
  destruct (paid =? 0); [discriminate |].
  destruct (users (ledger_after cs) !! sender_key tx) as [u |] eqn:Hu; [| discriminate].
  destruct (first_intersecting tx (history_txs (history u))) as [t |] eqn:Hfirst.
  2: { destruct ((sn tx - amount tx <? 0) || (sn tx >? total_received u));
         [discriminate |]. destruct (balance u <? paid); discriminate. }
  destruct (tx_eq tx t) eqn:Heq; [discriminate |]. intros _.
  apply first_intersecting_Some_inv in Hfirst as [Hint Hmeet].
  apply in_map_iff in Hint as ([key [[t0 s0] r0]] & Ht0 & Hin). cbn in Ht0. subst t0.
  pose proof (Hstored _ _ Hu) as Hall. unfold stored_checked in Hall.
  rewrite Forall_forall in Hall.
  pose proof (Hall _ (proj2 (list_elem_of_In _ _) Hin)) as Hentry.
  cbn in Hentry. destruct Hentry as (-> & Hsender & _ & p & Hp & _).
  exists u, t, s0, r0. split; [reflexivity |]. split; [exact Hin |].
  rewrite report_double_spend_unfold. cbn [snd]. rewrite Heval, Hp. cbn [rbind].
  unfold tx_ne. rewrite Heq, Hmeet.
  rewrite (proj2 (String.eqb_eq _ _)) by congruence. reflexivity.
Qed.


(** X14. When a payment goes through. In a ledger the bank built from
    constructed transactions, [process_payment] accepts a constructed check
    exactly when the check is payable, its sender has a record, no check
    stored for the sender shares a coin with it, its [sn] does not exceed
    the sender's [total_received], and the sender's balance covers the
    payable amount. *)
Theorem process_payment_accepts_iff (cs : list Call) (tx : Transaction)
    (sender_sig receiver_sig : string) :
  Forall call_constructed cs -> Constructed tx ->
  let b := ledger_after cs in
  snd (process_payment tx sender_sig receiver_sig b) = Ok true
  <-> exists paid u,
        evaluate tx sender_sig receiver_sig = Ok paid /\ paid <> 0
        /\ users b !! sender_key tx = Some u
        /\ (forall t, In t (history_txs (history u)) -> ~ share_coin tx t)
        /\ sn tx <= total_received u
        /\ paid <= balance u.
Proof.
  intros Hcs Htx b.
  destruct (ledger_after_kept cs Hcs) as (_ & _ & Hcons). fold b in Hcons.
  pose proof (Constructed_wf _ Htx) as (_ & Ha & Hle).
  rewrite process_payment_outcome, validate_payment_unfold. cbn [snd].
  split.
  - destruct (evaluate tx sender_sig receiver_sig) as [paid | e]; [| discriminate].
    destruct (Z.eqb_spec paid 0) as [| Hpaid]; [discriminate |].
    destruct (users b !! sender_key tx) as [u |]; [| discriminate].
    destruct (first_intersecting tx (history_txs (history u))) as [t |] eqn:Hfirst.
    { destruct (tx_eq tx t); discriminate. }
    destruct (Z.ltb_spec (sn tx - amount tx) 0); cbn [orb]; [discriminate |].
    destruct (Z.gtb_spec (sn tx) (total_received u)); [discriminate |].
    destruct (Z.ltb_spec (balance u) paid); [discriminate |].
    intros _. exists paid, u. repeat split; try reflexivity; try assumption; try lia.
    intros t Hin Hs%share_coin_intersection_exists.
    rewrite (first_intersecting_None _ _ Hfirst t Hin) in Hs. discriminate.
  - intros (paid & u & -> & Hpaid & Hu & Hfresh & Hhi & Hfunds).
    apply Z.eqb_neq in Hpaid. rewrite Hpaid, Hu.
    destruct (first_intersecting tx (history_txs (history u))) as [t |] eqn:Hfirst.
    { exfalso. apply first_intersecting_Some_inv in Hfirst as [Hin Hmeet].
      apply (Hfresh t Hin). pose proof (Hcons _ _ Hu) as Hcu. cbn beta in Hcu.
      rewrite Forall_forall in Hcu.
      pose proof (Hcu _ (proj2 (list_elem_of_In _ _) Hin)) as (_ & Hat & _)%Constructed_wf.
      apply intersection_exists_share_coin; assumption. }
    assert (Hrange : (sn tx - amount tx <? 0) || (sn tx >? total_received u) = false).
    { apply orb_false_iff. rewrite Z.gtb_ltb. split; apply Z.ltb_ge; lia. }
    rewrite Hrange. apply Z.ltb_ge in Hfunds. rewrite Hfunds. reflexivity.
Qed.

(** ** Counting coins *)

Lemma elem_of_coins (c : Z) (tx : Transaction) : c ∈ coins tx <-> in_interval c tx.
Proof.
  unfold coins, in_interval. rewrite elem_of_list_to_set, elem_of_seqZ. lia.
Qed.

Lemma size_coins (tx : Transaction) :
  0 <= amount tx -> Z.of_nat (size (coins tx)) = amount tx.
Proof.
  intros Ha. unfold coins. rewrite size_list_to_set by apply NoDup_seqZ.
  rewrite length_seqZ. lia.
Qed.

(** Disjoint checks claim as many coins as their amounts add up to. *)
Lemma disjoint_checks_coins (txs : list Transaction) :
  pairwise_disjoint txs -> Forall (fun t => 0 <= amount t) txs ->
  exists S : gset Z,
    (forall c, c ∈ S <-> exists t, In t txs /\ in_interval c t)
    /\ Z.of_nat (size S) = foldr Z.add 0 (map amount txs).
Proof.
  induction txs as [| t txs IH]; intros Hpd Ha.
  - exists ∅. split; [| reflexivity].
    intros c. split; [intros []%not_elem_of_empty | intros (t & [] & _)].
  - apply pairwise_disjoint_cons in Hpd as [Hhead Htail].
    apply Forall_cons in Ha as [Hat Ha].
    destruct (IH Htail Ha) as (S & HS & Hsize).
    exists (coins t ∪ S). split.
    + intros c. rewrite elem_of_union, elem_of_coins, HS. split.
      * intros [Hx | (t' & Hin & Hx)]; [exists t | exists t']; cbn; auto.
      * intros (t' & [<- | Hin] & Hx); [left | right]; eauto.
    + rewrite size_union.
      * cbn [map foldr]. rewrite Nat2Z.inj_add, size_coins, Hsize by exact Hat.
        reflexivity.
      * intros c Hc1%elem_of_coins (t' & Hin & Hc2)%HS.
        apply (Hhead t' Hin). exists c. auto.
Qed.

(** X5. Stored checks stay within the coins received: after any sequence
    of calls on the empty bank with deposits of amounts [>= 0] and payments of
    constructed transactions, every stored check of every user has
    [sn <= total_received] of that user, and the amounts of a user's stored
    checks add up to at most its [total_received]. *)
Theorem stored_checks_within_total_received (cs : list Call) :
  Forall call_constructed cs -> Forall deposit_nonneg cs ->
  every_user (fun u =>
                Forall (fun t => sn t <= total_received u) (history_txs (history u))
                /\ foldr Z.add 0 (map amount (history_txs (history u)))
                   <= total_received u)
    (ledger_after cs).
Proof.
  intros Hcs Hd k u Hu.
  destruct (ledger_after_kept cs Hcs) as (_ & Hdisj & Hcons).
  pose proof (ledger_after_within_total_received cs Hcs Hd k u Hu) as Hin.
  pose proof (Hdisj k u Hu) as Hpd. pose proof (Hcons k u Hu) as Hcu.
  cbn beta in Hin, Hpd, Hcu. split; [exact Hin |].
  set (txs := history_txs (history u)) in *.
  assert (Hwf : Forall (fun t => 1 <= amount t /\ amount t <= sn t) txs).
  { eapply Forall_impl; [exact Hcu |]. intros t Ht%Constructed_wf. lia. }
  destruct (disjoint_checks_coins txs Hpd) as (S & HS & Hsize).
  { eapply Forall_impl; [exact Hwf |]. cbn beta. intros t Ht. lia. }
  rewrite <- Hsize.
  assert (Hsub : S ⊆ list_to_set (seqZ 1 (total_received u))).
  { intros c (t & Ht & Hx)%HS. rewrite elem_of_list_to_set, elem_of_seqZ.
    rewrite Forall_forall in Hin, Hwf.
    pose proof (Hin t (proj2 (list_elem_of_In _ _) Ht)).
    pose proof (Hwf t (proj2 (list_elem_of_In _ _) Ht)).
    unfold in_interval in Hx. lia. }
  apply subseteq_size in Hsub.
  rewrite size_list_to_set, length_seqZ in Hsub by apply NoDup_seqZ.
  assert (Hnn : 0 <= total_received u).
  { apply (run_calls_every_user (fun u => 0 <= total_received u) cs) with
      (b := Bank_init) (k := k); try assumption.
    - cbn. lia.
    - intros a u0 Ha Hu0. cbn. lia.
    - intros tx paid sender_sig receiver_sig u0 _ Hu0. exact Hu0.
    - apply Bank_init_every_user. }
  lia.
Qed.

(** ** The ledger can be audited *)

Lemma spent_app (h : list (Z * HistoryEntry)) (k : Z) (t : Transaction)
    (sender_sig receiver_sig : string) (paid : Z) (tr bal : Z) :
  evaluate t sender_sig receiver_sig = Ok paid ->
  spent {| total_received := tr; balance := bal;
           history := (h ++ [(k, (t, sender_sig, receiver_sig))])%list |}
  = spent {| total_received := tr; balance := bal; history := h |} + paid.
Proof.
  intros Heval. unfold spent. cbn [history].
  induction h as [| [k' [[t' s'] r']] h IH].
  - cbn. rewrite Heval. lia.
  - cbn [app foldr snd]. rewrite IH.
    destruct (evaluate t' s' r'); lia.
Qed.

Lemma run_call_spent (c : Call) (b : Bank) :
  call_constructed c ->
  history_keyed b ->
  every_user (fun u => Forall Constructed (history_txs (history u))) b ->
  every_user (fun u => total_received u - balance u = spent u) b ->
  every_user (fun u => total_received u - balance u = spent u) (fst (run_call c b)).
Proof.
  intros Hc Hkeyed Hcons Hb. apply run_call_every_user; [reflexivity | | | exact Hb].
  - intros k a _ u Hu. unfold spent in *. cbn in *. lia.
  - intros tx sender_sig receiver_sig paid u -> Hv Hu.
    apply validate_payment_Ok in Hv as (_ & Heval & _ & u0 & Hu0 & Hnone & _).
    assert (u0 = u) as -> by congruence.
    pose proof (Constructed_wf _ Hc) as (_ & Hamount & _).
    split.
    + pose proof (Hb _ _ Hu) as Hspent. cbn beta in Hspent.
      unfold debit. rewrite dict_set_fresh
        by (apply validated_sn_fresh;
            [exact Hamount | apply (Hkeyed _ _ Hu) | apply (Hcons _ _ Hu) | exact Hnone]).
      rewrite (spent_app _ _ _ _ _ _ _ _ Heval). cbn [total_received balance].
      unfold spent in *. cbn [history]. lia.
    + intros u' Hu'. unfold spent in *. cbn in *. lia.
Qed.

(** X22. Balances can be recomputed from the histories: in a ledger
    reached from the empty bank by calls whose paid transactions are
    constructed, every user's [total_received - balance] equals what its
    stored checks paid, each evaluated again under the signatures stored with
    it. *)
Theorem spent_is_what_stored_checks_paid (cs : list Call) :
  Forall call_constructed cs ->
  every_user (fun u => total_received u - balance u = spent u) (ledger_after cs).
Proof.
  intros Hc. unfold ledger_after.
  assert (Hall : history_keyed (fst (run_calls cs Bank_init))
                 /\ every_user (fun u => Forall Constructed (history_txs (history u)))
                      (fst (run_calls cs Bank_init))
                 /\ every_user (fun u => total_received u - balance u = spent u)
                      (fst (run_calls cs Bank_init))).
  { apply (run_calls_invariant
             (fun b => history_keyed b
                       /\ every_user (fun u => Forall Constructed (history_txs (history u))) b
                       /\ every_user (fun u => total_received u - balance u = spent u) b)
             call_constructed); [| exact Hc |].
    - intros c b Hc0 (Hk & Hs & Hsp). split; [| split].
      + apply run_call_history_keyed, Hk.
      + apply run_call_stored_Constructed; assumption.
      + apply run_call_spent; assumption.
    - split; [| split]; apply Bank_init_every_user. }
  apply Hall.
Qed.


(** ** The signed message *)

Lemma semicolon_free_app (s1 s2 : string) :
  semicolon_free (s1 ++ s2) <-> semicolon_free s1 /\ semicolon_free s2.
Proof.
  clear H vrf_fullverify.
  induction s1 as [| c s1 IH]; simpl; [tauto |].
  rewrite IH. tauto.
Qed.

Lemma pretty_N_char_semicolon_free (x : N) : pretty_N_char x <> ";"%char.
Proof. clear H vrf_fullverify. unfold pretty_N_char. repeat case_match; discriminate. Qed.

Lemma pretty_N_go_semicolon_free (x : N) (s : string) :
  semicolon_free s -> semicolon_free (pretty_N_go x s).
Proof.
  clear H vrf_fullverify.
  revert s. induction (N.lt_wf_0 x) as [x _ IH]; intros s Hs.
  destruct (N.eq_dec x 0%N) as [-> | Hx]; [rewrite pretty_N_go_0; exact Hs |].
  rewrite pretty_N_go_step by lia. apply IH.
  - apply N.div_lt; lia.
  - split; [apply pretty_N_char_semicolon_free | exact Hs].
Qed.

Lemma pretty_Z_semicolon_free (z : Z) : semicolon_free (pretty z).
Proof.
  clear H vrf_fullverify.
  assert (HN : forall n : N, semicolon_free (pretty n)).
  { intros n. unfold pretty, pretty_N. case_decide.
    - cbn. split; [discriminate | exact I].
    - apply pretty_N_go_semicolon_free. exact I. }
  destruct z as [| p | p]; unfold pretty, pretty_Z.
  - cbn. split; [discriminate | exact I].
  - apply HN.
  - apply semicolon_free_app. split; [| apply HN]. cbn. split; [discriminate | exact I].
Qed.

(** Two texts cut at their first semicolon. *)
Lemma first_semicolon (p1 p2 r1 r2 : string) :
  semicolon_free p1 -> semicolon_free p2 ->
  p1 ++ String ";" r1 = p2 ++ String ";" r2 -> p1 = p2 /\ r1 = r2.
Proof.
  clear H vrf_fullverify.
  revert p2. induction p1 as [| c p1 IH]; intros [| c2 p2] Hp1 Hp2; simpl in *.
  - intros [= <-]. auto.
  - intros [= <- _]. tauto.
  - intros [= -> _]. tauto.
  - intros [= <- Hrest]. destruct (IH p2) as [<- <-]; tauto.
Qed.

(** Two texts cut at their last semicolon. *)
Lemma last_semicolon (s1 s2 q1 q2 : string) :
  semicolon_free q1 -> semicolon_free q2 ->
  s1 ++ String ";" q1 = s2 ++ String ";" q2 -> s1 = s2 /\ q1 = q2.
Proof.
  clear H vrf_fullverify.
  intros Hq1 Hq2. revert s2. induction s1 as [| c s1 IH]; intros [| c2 s2]; simpl.
  - intros [= <-]. auto.
  - intros [= <- ->]. apply semicolon_free_app in Hq1 as [_ [Hsemi _]]. congruence.
  - intros [= -> <-]. apply semicolon_free_app in Hq2 as [_ [Hsemi _]]. congruence.
  - intros [= <- Hrest]. destruct (IH s2 Hrest) as [<- <-]. auto.
Qed.

(** X23. The text a check signs binds exactly four of its fields: two
    transactions the constructor returned have the same message text if and
    only if they agree on [sn], [amount], [receiver_key] and [timestamp]. No
    receiver key, whatever characters it holds, makes two different checks
    read the same; the sender's key is not part of the text. *)
Theorem msg_text_binds_fields (tx1 tx2 : Transaction) :
  Constructed tx1 -> Constructed tx2 ->
  (msg_text tx1 = msg_text tx2
   <-> sn tx1 = sn tx2 /\ amount tx1 = amount tx2
       /\ receiver_key tx1 = receiver_key tx2 /\ timestamp tx1 = timestamp tx2).
Proof.
  clear H vrf_fullverify.
  intros (sn1 & a1 & sk1 & rk1 & ts1 & (-> & _)%Transaction_init_Ok)
         (sn2 & a2 & sk2 & rk2 & ts2 & (-> & _)%Transaction_init_Ok).
  unfold msg_text. cbn [sn amount receiver_key timestamp]. split.
  - simpl. intros [= Hsn].
    apply first_semicolon in Hsn as [Hsn Hrest]; try apply pretty_Z_semicolon_free.
    injection Hrest as Hamt.
    apply first_semicolon in Hamt as [Hamt Hrest]; try apply pretty_Z_semicolon_free.
    injection Hrest as Hrk.
    apply last_semicolon in Hrk as [Hrk Hts];
      try (cbn; repeat split; try discriminate; apply pretty_Z_semicolon_free).
    injection Hts as Hts.
    apply (inj pretty) in Hsn, Hamt. subst. auto.
  - intros (Hsn & Hamt & -> & ->). rewrite Hsn, Hamt. reflexivity.
Qed.


(** * Properties of the wallet *)

Lemma decode_encode (s : string) : Hex.decode (Hex.encode s) = Ok s.
Proof.
  induction s as [| c s IH]; [reflexivity |].
  destruct (byte_nibbles c) as (Hhi & Hlo & Hsum).
  cbn [Hex.encode Hex.decode].
  rewrite (digit_val_digit_of _ Hhi), (digit_val_digit_of _ Hlo), IH. cbn [rbind].
  rewrite Hsum, N2Z.id, ascii_N_embedding. reflexivity.
Qed.

(** X15. [Wallet.create] cannot fail: whatever bytes the system's random
    source returns, the new wallet holds exactly those bytes as its secret
    key (the detour through their hex rendering loses nothing), with
    [sn = 0], [total_received = 0] and the given amount. *)
Theorem Wallet_create_holds_key (sk : string) (amount_ : Z) :
  Wallet_create sk amount_
  = Ok {| Wallet.total_received := 0; Wallet.sn := 0; Wallet.priv_key := sk;
          Wallet.amount := amount_ |}.
Proof.
  unfold Wallet_create, Wallet_init. cbv zeta. rewrite decode_encode. reflexivity.
Qed.

Section WalletProperties.

Context {keys : VrfKeys}.

(** The check and proof [pay] prepares before it touches the wallet. *)
Lemma Wallet_pay_unfold (clock : Z) (receiver_key_ : string) (amount_ : Z)
    (timestamp_ : option Z) (self : Wallet.t) :
  Wallet_pay clock receiver_key_ amount_ timestamp_ self =
  if amount_ <? 1 then (self, Raise ValueError)
  else if amount_ >? Wallet.amount self then (self, Raise ValueError)
  else
    match
      (let! pubkey := Wallet_pubkey self in
       let! T := Transaction_init (Wallet.sn self + amount_) amount_ pubkey receiver_key_
                   (default clock timestamp_) in
       let! msg_ := msg T in
       let! sender_sig := external (vrf_prove (Wallet.priv_key self) msg_) in
       Ok (T, sender_sig))
    with
    | Ok issued =>
        ({| Wallet.total_received := Wallet.total_received self;
            Wallet.sn := Wallet.sn self + amount_;
            Wallet.priv_key := Wallet.priv_key self;
            Wallet.amount := Wallet.amount self - amount_ |}, Ok issued)
    | Raise e => (self, Raise e)
    end.
Proof.
  unfold Wallet_pay, wbind, wget, wraise, wlift, wret, add_sn, sub_amount.
  destruct (amount_ <? 1); [reflexivity |].
  destruct (amount_ >? Wallet.amount self); [reflexivity |].
  replace (match timestamp_ with None => clock | Some t => t end)
    with (default clock timestamp_) by (destruct timestamp_; reflexivity).
  destruct (Wallet_pubkey self) as [pubkey |]; cbn [rbind]; [| reflexivity].
  destruct (Transaction_init _ _ _ _ _) as [T |]; cbn [rbind]; [| reflexivity].
  destruct (msg T) as [m |]; cbn [rbind]; [| reflexivity].
  destruct (vrf_prove (Wallet.priv_key self) m); cbn [rbind external]; reflexivity.
Qed.

(** What a wallet and the check it issued have to do with each other. *)
Lemma Wallet_pay_issued (clock : Z) (receiver_key_ : string) (amount_ : Z)
    (timestamp_ : option Z) (self self' : Wallet.t) (T : Transaction) (sender_sig : string) :
  Wallet_pay clock receiver_key_ amount_ timestamp_ self = (self', Ok (T, sender_sig)) ->
  1 <= amount_ <= Wallet.amount self
  /\ 0 <= Wallet.sn self
  /\ Wallet.sn self' = Wallet.sn self + amount_
  /\ Wallet.amount self' = Wallet.amount self - amount_
  /\ Wallet.priv_key self' = Wallet.priv_key self
  /\ sn T = Wallet.sn self + amount_
  /\ amount T = amount_
  /\ Constructed T.
Proof.
  rewrite Wallet_pay_unfold.
  destruct (Z.ltb_spec amount_ 1); [discriminate |].
  destruct (Z.gtb_spec amount_ (Wallet.amount self)); [discriminate |].
  destruct (Wallet_pubkey self) as [pubkey |]; cbn [rbind]; [| discriminate].
  destruct (Transaction_init _ _ _ _ _) as [T0 |] eqn:Hinit; cbn [rbind]; [| discriminate].
  destruct (msg T0) as [m |]; cbn [rbind]; [| discriminate].
  destruct (vrf_prove (Wallet.priv_key self) m); cbn [rbind external]; [| discriminate].
  intros [= <- <- <-]. cbn [Wallet.sn Wallet.amount Wallet.priv_key].
  assert (Hcons : Constructed T0) by (red; eauto 10).
  apply Transaction_init_Ok in Hinit as (-> & Hsn & Ha & Hle). cbn [sn amount].
  repeat split; try reflexivity; try exact Hcons; lia.
Qed.


(** X17. What a successful [pay] does: the amount was between 1 and the
    wallet's [amount]; the check claims exactly the coins
    [self.sn + 1 .. self.sn + amount], names the wallet's public key as the
    sender and the given receiver, carries the given timestamp (the clock's
    when none was given), and satisfies the constructor's invariants; the
    proof is the VRF's proof of the check's message under the wallet's key;
    and the wallet's [sn] has advanced and its [amount] dropped by the
    amount, nothing else changed. *)
Theorem Wallet_pay_issues (clock : Z) (receiver_key_ : string) (amount_ : Z)
    (timestamp_ : option Z) (self self' : Wallet.t) (T : Transaction) (sender_sig : string) :
  Wallet_pay clock receiver_key_ amount_ timestamp_ self = (self', Ok (T, sender_sig)) ->
  1 <= amount_ <= Wallet.amount self
  /\ T = {| sn := Wallet.sn self + amount_; amount := amount_;
            sender_key := sender_key T; receiver_key := receiver_key_;
            timestamp := pretty (default clock timestamp_) |}
  /\ Wallet_pubkey self = Ok (sender_key T)
  /\ interval_lo T = Wallet.sn self + 1 /\ interval_hi T = Wallet.sn self'
  /\ Constructed T
  /\ (exists msg_, msg T = Ok msg_
                   /\ vrf_prove (Wallet.priv_key self) msg_ = Some sender_sig)
  /\ self' = {| Wallet.total_received := Wallet.total_received self;
                Wallet.sn := Wallet.sn self + amount_;
                Wallet.priv_key := Wallet.priv_key self;
                Wallet.amount := Wallet.amount self - amount_ |}.
Proof.
  rewrite Wallet_pay_unfold.
  destruct (Z.ltb_spec amount_ 1); [discriminate |].
  destruct (Z.gtb_spec amount_ (Wallet.amount self)); [discriminate |].
  destruct (Wallet_pubkey self) as [pubkey |]; cbn [rbind]; [| discriminate].
  destruct (Transaction_init _ _ _ _ _) as [T0 |] eqn:Hinit; cbn [rbind]; [| discriminate].
  destruct (msg T0) as [m |] eqn:Hm; cbn [rbind]; [| discriminate].
  destruct (vrf_prove (Wallet.priv_key self) m) as [proof |] eqn:Hproof;
    cbn [rbind external]; [| discriminate].
  intros [= <- <- <-].
  assert (Hcons : Constructed T0) by (red; eauto 10).
  apply Transaction_init_Ok in Hinit as (-> & Hsn & Ha & Hle).
  unfold interval_lo, interval_hi. cbn [sn amount sender_key Wallet.sn] in *.
  repeat split; try reflexivity; try exact Hcons; try lia.
  exists m. split; [exact Hm | exact Hproof].
Qed.

Lemma pay_all_cons (clock : Z) (req : PayRequest) (reqs : list PayRequest) (self : Wallet.t) :
  pay_all clock (req :: reqs) self =
  match Wallet_pay clock (fst (fst req)) (snd (fst req)) (snd req) self with
  | (self', Ok issued) =>
      (fst (pay_all clock reqs self'), fst issued :: snd (pay_all clock reqs self'))
  | (self', Raise _) => pay_all clock reqs self'
  end.
Proof.
  destruct req as [[receiver_key_ amount_] timestamp_]. cbn [pay_all fst snd].
  destruct (Wallet_pay clock receiver_key_ amount_ timestamp_ self) as [self' [[T sig] | e]];
    [| reflexivity].
  destruct (pay_all clock reqs self'). reflexivity.
Qed.

(** The checks a wallet issues tile the coins between its old and new [sn]. *)
Lemma pay_all_tiles (clock : Z) (reqs : list PayRequest) (self : Wallet.t) :
  let self' := fst (pay_all clock reqs self) in
  let issued := snd (pay_all clock reqs self) in
  Wallet.sn self <= Wallet.sn self'
  /\ Wallet.sn self' - Wallet.sn self = foldr Z.add 0 (map amount issued)
  /\ Wallet.amount self - Wallet.amount self' = foldr Z.add 0 (map amount issued)
  /\ (0 <= Wallet.amount self -> 0 <= Wallet.amount self')
  /\ Forall (fun t => Wallet.sn self < interval_lo t
                      /\ interval_hi t <= Wallet.sn self'
                      /\ Constructed t) issued
  /\ pairwise_disjoint issued.
Proof.
  revert self. induction reqs as [| req reqs IH]; intros self; cbv zeta.
  - cbn. repeat split; try lia; [constructor | apply pairwise_disjoint_nil].
  - rewrite pay_all_cons.
    destruct (Wallet_pay clock (fst (fst req)) (snd (fst req)) (snd req) self)
      as [self1 [[T sig] | e]] eqn:Hpay.
    + apply Wallet_pay_issued in Hpay
        as (Hamt & Hsn0 & Hsn1 & Hamt1 & _ & HsnT & HaT & HconsT).
      specialize (IH self1). cbv zeta in IH.
      destruct IH as (Hle & Hsum & Hsub & Hnn & Hin & Hpd).
      cbn [fst snd map foldr]. rewrite HaT.
      repeat split; try lia.
      * constructor.
        -- unfold interval_lo, interval_hi. repeat split; [lia | lia | exact HconsT].
        -- eapply Forall_impl; [exact Hin |]. cbn beta. intros t (? & ? & ?).
           repeat split; [lia | assumption | assumption].
      * apply pairwise_disjoint_cons. split; [| exact Hpd].
        intros t' Ht' (c & Hc1 & Hc2). rewrite Forall_forall in Hin.
        destruct (Hin _ (proj2 (list_elem_of_In _ _) Ht')) as (Hlo & _ & _).
        unfold in_interval, interval_lo in *. lia.
    + assert (self1 = self) as ->.
      { rewrite Wallet_pay_unfold in Hpay.
        destruct (snd (fst req) <? 1); [congruence |].
        destruct (snd (fst req) >? Wallet.amount self); [congruence |].
        destruct (let! pubkey := Wallet_pubkey self in _); congruence. }
      apply IH.
Qed.

(** X18. An honest wallet never double-spends: whatever requests a wallet
    serves with [pay], one after the other, the checks it issues claim
    pairwise disjoint coin intervals, and [report_double_spend] called on
    any two of them never raises [ErrDoubleSpend], whatever the signatures
    presented and the state of the bank. *)
Theorem wallet_never_double_spends (clock : Z) (reqs : list PayRequest) (self : Wallet.t) :
  let issued := snd (pay_all clock reqs self) in
  pairwise_disjoint issued
  /\ forall (i j : nat) (t1 t2 : Transaction) (s1 r1 s2 r2 : string) (b : Bank),
       i <> j -> issued !! i = Some t1 -> issued !! j = Some t2 ->
       snd (report_double_spend t1 s1 r1 t2 s2 r2 b) <> Raise ErrDoubleSpend.
Proof.
  cbv zeta. destruct (pay_all_tiles clock reqs self) as (_ & _ & _ & _ & Hin & Hpd).
  split; [exact Hpd |].
  intros i j t1 t2 s1 r1 s2 r2 b Hij Hi Hj.
  rewrite Forall_forall in Hin.
  destruct (Hin t1) as (_ & _ & (_ & Ha1 & _)%Constructed_wf);
    [apply list_elem_of_lookup; eauto |].
  destruct (Hin t2) as (_ & _ & (_ & Ha2 & _)%Constructed_wf);
    [apply list_elem_of_lookup; eauto |].
  assert (Hmeet : intersection_exists t1 t2 = false).
  { destruct (intersection_exists t1 t2) eqn:Hm; [| reflexivity].
    exfalso. apply (Hpd i j t1 t2 Hij Hi Hj).
    apply intersection_exists_share_coin; assumption. }
  rewrite report_double_spend_unfold. cbn [snd].
  destruct (evaluate t1 s1 r1) as [p1 | e] eqn:He1; cbn [rbind].
  2: { apply evaluate_Raise in He1. intros [= ->].
       destruct He1 as [? | [? | ?]]; discriminate. }
  destruct (evaluate t2 s2 r2) as [p2 | e] eqn:He2; cbn [rbind].
  2: { apply evaluate_Raise in He2. intros [= ->].
       destruct He2 as [? | [? | ?]]; discriminate. }
  rewrite Hmeet, andb_false_r. discriminate.
Qed.

(** X19. The wallet's books: over any requests served, the wallet's [sn]
    grows and its [amount] drops by exactly the sum of the amounts of the
    checks issued; an [amount] that was not negative stays so; and the
    issued checks are constructed and lie within the coins between the old
    [sn] (excluded) and the new [sn] (included). *)
Theorem wallet_books_balance (clock : Z) (reqs : list PayRequest) (self : Wallet.t) :
  let self' := fst (pay_all clock reqs self) in
  let issued := snd (pay_all clock reqs self) in
  Wallet.sn self' - Wallet.sn self = foldr Z.add 0 (map amount issued)
  /\ Wallet.amount self - Wallet.amount self' = foldr Z.add 0 (map amount issued)
  /\ (0 <= Wallet.amount self -> 0 <= Wallet.amount self')
  /\ Forall (fun t => Wallet.sn self < interval_lo t
                      /\ interval_hi t <= Wallet.sn self'
                      /\ Constructed t) issued.
Proof.
  cbv zeta.
  destruct (pay_all_tiles clock reqs self) as (_ & Hsum & Hsub & Hnn & Hin & _).
  auto.
Qed.

(** What a successful [sign_receive] found on its way. *)
Lemma Wallet_sign_receive_Ok (T : Transaction) (sender_sig : string) (self : Wallet.t)
    (T' : Transaction) (receiver_sig : string) :
  Wallet_sign_receive T sender_sig self = Ok (T', receiver_sig) ->
  T' = T
  /\ exists (privpub : Z * ECPoint) (osp sender_pk msg_ sender_beta : string),
       sk_to_privpub (Wallet.priv_key self) = Some privpub
       /\ ec2osp (snd privpub) = Some osp
       /\ receiver_key T = Hex.encode osp
       /\ Hex.decode (sender_key T) = Ok sender_pk
       /\ msg T = Ok msg_
       /\ vrf_fullverify sender_pk sender_sig msg_ = Some sender_beta
       /\ vrf_prove (Wallet.priv_key self) sender_beta = Some receiver_sig.
Proof.
  unfold Wallet_sign_receive, Wallet_pubkey.
  destruct (sk_to_privpub (Wallet.priv_key self)) as [privpub |] eqn:Hsk;
    cbn [rbind external]; [| discriminate].
  cbv zeta.
  destruct (ec2osp (snd privpub)) as [osp |] eqn:Hosp; cbn [rbind external];
    [| discriminate].
  destruct (String.eqb_spec (receiver_key T) (Hex.encode osp)) as [Hrk | Hrk];
    cbn [negb]; [| discriminate].
  destruct (Hex.decode (sender_key T)) as [sender_pk |] eqn:Hdec; cbn [rbind];
    [| discriminate].
  destruct (msg T) as [m |] eqn:Hm; cbn [rbind]; [| discriminate].
  destruct (vrf_fullverify sender_pk sender_sig m) as [sender_beta |] eqn:Hv;
    cbn [rbind external]; [| discriminate].
  destruct (vrf_prove (Wallet.priv_key self) sender_beta) as [proof |] eqn:Hp;
    cbn [rbind external]; [| discriminate].
  intros [= <- <-]. split; [reflexivity |].
  exists privpub, osp, sender_pk, m, sender_beta. auto 10.
Qed.

Lemma countersigned_evaluates (T : Transaction) (sender_sig : string) (self : Wallet.t)
    (T' : Transaction) (receiver_sig : string) :
  Wallet_sign_receive T sender_sig self = Ok (T', receiver_sig) ->
  vrf_complete_for (Wallet.priv_key self) ->
  exists paid, evaluate T sender_sig receiver_sig = Ok paid.
Proof.
  intros (_ & [x point] & osp & sender_pk & m & sender_beta
          & Hsk & Hosp & Hrk & Hdec & Hm & Hv & Hp)%Wallet_sign_receive_Ok Hcomplete.
  destruct (Hcomplete x point osp sender_beta receiver_sig Hsk Hosp Hp)
    as (beta & Hbeta & Hlen).
  unfold evaluate. rewrite Hm. cbn [rbind]. rewrite Hdec. cbn [rbind].
  rewrite Hv. cbn [rbind external]. rewrite Hrk, decode_encode. cbn [rbind].
  rewrite Hbeta. cbn [rbind external]. rewrite length_encode, Hlen.
  change (negb (Z.of_nat (2 * 64) =? 128)) with false. cbv iota.
  rewrite calculate_payment_MP by (intros ->; discriminate). eauto.
Qed.

(** X20. A counter-signed check passes the bank's signature checks:
    [sign_receive] refuses (by assertion) a check made out to another key;
    when it returns, it returns the check it was given, made out to this
    wallet's public key, and, provided the VRF verifies what this wallet's
    key proves and outputs 64 bytes, [evaluate] on the check and the two
    proofs does not raise: it returns a payable amount. *)
Theorem Wallet_sign_receive_evaluates (T : Transaction) (sender_sig : string)
    (self : Wallet.t) :
  (forall pubkey, Wallet_pubkey self = Ok pubkey -> receiver_key T <> pubkey ->
                  Wallet_sign_receive T sender_sig self = Raise AssertionError)
  /\ (forall T' receiver_sig,
        Wallet_sign_receive T sender_sig self = Ok (T', receiver_sig) ->
        T' = T
        /\ Wallet_pubkey self = Ok (receiver_key T)
        /\ (vrf_complete_for (Wallet.priv_key self) ->
            exists paid, evaluate T sender_sig receiver_sig = Ok paid)).
Proof.
  split.
  - intros pubkey Hpk Hne. unfold Wallet_sign_receive. rewrite Hpk. cbn [rbind].
    destruct (String.eqb_spec (receiver_key T) pubkey); [contradiction | reflexivity].
  - intros T' receiver_sig Hsign. split; [| split].
    + apply Wallet_sign_receive_Ok in Hsign as [-> _]. reflexivity.
    + apply Wallet_sign_receive_Ok in Hsign
        as (_ & privpub & osp & _ & _ & _ & Hsk & Hosp & Hrk & _).
      unfold Wallet_pubkey. rewrite Hsk. cbn [rbind external]. cbv zeta.
      rewrite Hosp. cbn [rbind external]. rewrite Hrk. reflexivity.
    + intros Hcomplete. eapply countersigned_evaluates; eassumption.
Qed.

(** X21. The honest path, end to end. A bank that has only seen a deposit
    of [d] coins to the payer's key; a payer's wallet whose coins lie within
    that deposit ([sn + amount <= d]); the payer pays, the receiver
    counter-signs, the check goes to [process_payment]. Provided the VRF
    verifies what the receiver's key proves, the bank raises neither a
    signature error nor [ErrUnknownSender], [ErrDoubleSpend],
    [ErrAlreadyProcessed] or [ErrInvalidCoinInterval]: it raises
    [ErrNotPayable] when the lottery paid 0, [ErrNotEnoughFunds] when the
    payable amount exceeds [d], and accepts otherwise. *)
Theorem honest_payment_outcome (clock d amount_ : Z) (receiver_key_ : string)
    (timestamp_ : option Z) (payer payer' receiver : Wallet.t)
    (T T' : Transaction) (sender_sig receiver_sig : string) :
  Wallet.sn payer + Wallet.amount payer <= d ->
  Wallet_pay clock receiver_key_ amount_ timestamp_ payer = (payer', Ok (T, sender_sig)) ->
  Wallet_sign_receive T sender_sig receiver = Ok (T', receiver_sig) ->
  vrf_complete_for (Wallet.priv_key receiver) ->
  exists paid,
    evaluate T sender_sig receiver_sig = Ok paid
    /\ snd (process_payment T sender_sig receiver_sig
              (fst (deposit (sender_key T) d Bank_init)))
       = if paid =? 0 then Raise ErrNotPayable
         else if d <? paid then Raise ErrNotEnoughFunds
         else Ok true.
Proof.
  intros Hwithin Hpay Hsign Hcomplete.
  destruct (countersigned_evaluates _ _ _ _ _ Hsign Hcomplete) as (paid & Heval).
  exists paid. split; [exact Heval |].
  apply Wallet_pay_issued in Hpay as (Hamt & Hsn0 & _ & _ & _ & HsnT & HaT & _).
  unfold deposit. rewrite add_balance_unfold. cbn [fst].
  rewrite process_payment_outcome, validate_payment_unfold. cbn [snd users].
  rewrite Heval. destruct (paid =? 0); [reflexivity |].
  rewrite lookup_insert_eq. unfold user_or_new, Bank_init. cbn [users].
  rewrite lookup_empty.
  cbn [from_option id new_user credit history history_txs map first_intersecting
       total_received balance].
  assert (Hrange : (sn T - amount T <? 0) || (sn T >? 0 + d) = false).
  { apply orb_false_iff. rewrite Z.gtb_ltb. split; apply Z.ltb_ge; lia. }
  rewrite Hrange. change (0 + d) with d. destruct (d <? paid); reflexivity.
Qed.

End WalletProperties.

End MR01.

(** * The bank at work on concrete calls *)

(** The scenarios of the test suite, with the stand-in VRF. *)
Example happy_path :
  run_calls toy_H toy_vrf
    [CallDeposit alice 15; CallProcessPayment tx_a1 sig_hit sig_hit] Bank_init
  = (bank_a1, [Ok tt; Ok tt]).
Proof. vm_compute. reflexivity. Qed.

Example not_payable :
  evaluate toy_H toy_vrf tx_a1 sig_hit sig_miss = Ok 0
  /\ run_calls toy_H toy_vrf
       [CallDeposit alice 15; CallProcessPayment tx_a1 sig_hit sig_miss] Bank_init
     = ({| users := <[alice := {| total_received := 15; balance := 15;
                                  history := [] |}]> ∅ |},
        [Ok tt; Raise ErrNotPayable]).
Proof. split; vm_compute; reflexivity. Qed.

Example already_processed :
  process_payment toy_H toy_vrf tx_a1 sig_hit sig_hit bank_a1
  = (bank_a1, Raise ErrAlreadyProcessed).
Proof. vm_compute. reflexivity. Qed.

Example double_spend_report :
  snd (report_double_spend toy_H toy_vrf tx_a1 sig_hit sig_hit
         tx_a3 sig_hit sig_miss bank_a1) = Raise ErrDoubleSpend
  /\ snd (report_double_spend toy_H toy_vrf tx_a1 sig_hit sig_hit
            tx_a2 sig_hit sig_miss bank_a1) = Ok tt.
Proof. split; vm_compute; reflexivity. Qed.

Example invalid_coin_interval_then_deposit :
  snd (run_calls toy_H toy_vrf
         [CallDeposit alice 9; CallProcessPayment tx_a10 sig_hit sig_hit;
          CallDeposit alice 1; CallProcessPayment tx_a10 sig_hit sig_hit] Bank_init)
  = [Ok tt; Raise ErrInvalidCoinInterval; Ok tt; Ok tt].
Proof. vm_compute. reflexivity. Qed.

Example not_enough_funds :
  snd (run_calls toy_H toy_vrf
         [CallDeposit alice 9; CallProcessPayment tx_a1 sig_hit sig_hit] Bank_init)
  = [Ok tt; Raise ErrNotEnoughFunds].
Proof. vm_compute. reflexivity. Qed.

Lemma tx_a1_Constructed : Constructed tx_a1.
Proof. exists 1, 1, alice, bob, 1700009006. reflexivity. Defined.

(** ** The theorems at concrete inputs *)

Lemma process_payment_all_or_nothing_witness :
  exists (b' : Bank) (e : Exception),
    process_payment toy_H toy_vrf tx_a3 sig_hit sig_hit bank_a1 = (b', Raise e)
    /\ b' = bank_a1.
Proof.
  destruct (process_payment toy_H toy_vrf tx_a3 sig_hit sig_hit bank_a1)
    as [b' [ok | e]] eqn:Hrun.
  - vm_compute in Hrun. discriminate.
  - exists b', e. split; [reflexivity |].
    exact (process_payment_all_or_nothing toy_H toy_vrf tx_a3 sig_hit sig_hit
             bank_a1 b' e Hrun).
Defined.

Lemma payable_amount_float_threshold_witness :
  String.length beta_zero = 64%nat
  /\ calculate_payment MP 13 (Hex.encode beta_zero)
     = Ok (payable_float 13 (Hex.be_value beta_zero))
  /\ payable_float 13 (Hex.be_value beta_zero) = 20.
Proof.
  split; [reflexivity |]. split; [| vm_compute; reflexivity].
  exact (proj1 (proj2 (payable_amount_float_threshold toy_H toy_vrf 13 beta_zero
                         eq_refl))).
Defined.

Lemma deposit_credits_any_amount_witness :
  exists b',
    deposit alice 15 Bank_init = (b', Ok tt)
    /\ users b' !! alice =
       Some {| total_received := total_received (user_or_new Bank_init alice) + 15;
               balance := balance (user_or_new Bank_init alice) + 15;
               history := history (user_or_new Bank_init alice) |}
    /\ (forall k, k <> alice -> users b' !! k = users Bank_init !! k).
Proof. exact (deposit_credits_any_amount alice 15 Bank_init). Defined.

Lemma balances_nonneg_after_calls_witness :
  balances_nonneg bank_a1.
Proof.
  apply (balances_nonneg_after_calls toy_H toy_vrf
           [CallDeposit alice 15; CallProcessPayment tx_a1 sig_hit sig_hit;
            CallReportDoubleSpend tx_a1 sig_hit sig_hit tx_a2 sig_hit sig_miss]
           bank_a1 [Ok tt; Ok tt; Ok tt]).
  - repeat constructor. exact tx_a1_Constructed.
  - repeat constructor; cbn; lia.
  - vm_compute. reflexivity.
  - repeat constructor.
Defined.

Lemma process_payment_check_order_witness :
  snd (process_payment toy_H toy_vrf tx_a3 sig_hit sig_hit bank_a1)
  = Raise ErrDoubleSpend
  \/ snd (process_payment toy_H toy_vrf tx_a3 sig_hit sig_hit bank_a1)
     = Raise ErrAlreadyProcessed.
Proof.
  destruct (process_payment_check_order toy_H toy_vrf tx_a3 sig_hit sig_hit bank_a1)
    as (_ & _ & Hpaid).
  assert (Heval : evaluate toy_H toy_vrf tx_a3 sig_hit sig_hit = Ok 10)
    by (vm_compute; reflexivity).
  assert (Hne : 10 <> 0) by lia.
  destruct (Hpaid 10 Heval Hne) as (_ & Hknown).
  assert (Hu : users bank_a1 !! sender_key tx_a3
               = Some {| total_received := 15; balance := 5;
                         history := [(1, (tx_a1, sig_hit, sig_hit))] |})
    by (vm_compute; reflexivity).
  destruct (Hknown _ Hu) as (_ & Hshare & _).
  apply (Hshare tx_a1).
  - left. reflexivity.
  - exists 1. unfold in_interval. cbn. lia.
Defined.

Lemma intersection_exists_iff_overlap_witness :
  (intersection_exists tx_a1 tx_a3 = true
   <-> Z.max (interval_lo tx_a1) (interval_lo tx_a3)
       <= Z.min (interval_hi tx_a1) (interval_hi tx_a3))
  /\ (intersection_exists tx_a1 tx_a3 = true <-> share_coin tx_a1 tx_a3).
Proof. apply intersection_exists_iff_overlap; cbn; lia. Defined.

Lemma coin_range_underflow_unreachable_witness :
  exists u, users bank_a9 !! sender_key tx_a10 = Some u
            /\ sn tx_a10 > total_received u.
Proof.
  pose proof (coin_range_underflow_unreachable toy_H toy_vrf 10 10 alice bob 1700009006)
    as Hthm.
  change (Transaction_init 10 10 alice bob 1700009006) with (Ok tx_a10) in Hthm.
  destruct Hthm as (_ & _ & _ & _ & _ & _ & Hrange).
  apply (Hrange sig_hit sig_hit bank_a9 bank_a9).
  vm_compute. reflexivity.
Defined.

(** ** Where the code and the specification part *)

(** A one-coin check and the VRF output [2^512 / 10 + 1]: not below the exact
    threshold [2^512 / 10], so the specification pays [0]; below the double
    [2^512 * 0.1], so [calculate_payment] and [evaluate] pay [10]. *)
Lemma exact_threshold_counterexample :
  String.length beta_above_tenth = 64%nat
  /\ Hex.be_value beta_above_tenth = 2 ^ 512 / 10 + 1
  /\ payable_exact MP 1 (Hex.be_value beta_above_tenth) = 0
  /\ calculate_payment MP 1 (Hex.encode beta_above_tenth) = Ok 10
  /\ evaluate toy_H (fun _ _ _ => Some beta_above_tenth) tx_a1 sig_hit sig_hit = Ok 10
  /\ calculate_payment MP 1 (Hex.encode beta_above_tenth)
     <> Ok (payable_exact MP 1 (Hex.be_value beta_above_tenth)).
Proof.
  repeat split; try (vm_compute; reflexivity).
  vm_compute. discriminate.
Qed.

(** [deposit] of a negative amount returns normally and debits. *)
Lemma deposit_negative_counterexample :
  snd (deposit alice (-5) Bank_init) = Ok tt
  /\ users (fst (deposit alice (-5) Bank_init)) !! alice
     = Some {| total_received := -5; balance := -5; history := [] |}
  /\ fst (deposit alice (-5) Bank_init) <> Bank_init.
Proof.
  repeat split; try (vm_compute; reflexivity).
  intros Heq. apply (f_equal (fun b => users b !! alice)) in Heq.
  vm_compute in Heq. discriminate.
Qed.

(** One successful call, and a balance below zero. *)
Lemma balances_nonneg_counterexample :
  Forall call_constructed [CallDeposit alice (-5)]
  /\ Forall is_Ok (snd (run_calls toy_H toy_vrf [CallDeposit alice (-5)] Bank_init))
  /\ ~ balances_nonneg (fst (run_calls toy_H toy_vrf [CallDeposit alice (-5)] Bank_init)).
Proof.
  split; [repeat constructor |].
  split; [vm_compute; repeat constructor |].
  intros Hnn.
  assert (Hu : users (fst (run_calls toy_H toy_vrf [CallDeposit alice (-5)] Bank_init))
               !! alice
               = Some {| total_received := -5; balance := -5; history := [] |})
    by (vm_compute; reflexivity).
  specialize (Hnn _ _ Hu). cbn in Hnn. lia.
Qed.

(** * The further properties at concrete inputs *)

Lemma tx_a2_Constructed : Constructed tx_a2.
Proof. exists 2, 1, alice, bob, 1700009006. reflexivity. Defined.

Lemma tx_a3_Constructed : Constructed tx_a3.
Proof. exists 3, 3, alice, carol, 1700009007. reflexivity. Defined.

Lemma toy_vrf_complete (sk : string) : vrf_complete_for toy_vrf (keys := toy_keys) sk.
Proof.
  intros x point osp message proof [= _ <-] [= <-] Hproof. cbn in Hproof.
  destruct sk as [| c sk]; [discriminate |]. injection Hproof as <-.
  eexists. split; reflexivity.
Defined.

Lemma balance_below_total_received_witness :
  every_user (fun u => balance u <= total_received u)
    (ledger_after toy_H toy_vrf
       [CallDeposit alice 15; CallProcessPayment tx_a1 sig_hit sig_hit]).
Proof.
  apply balance_below_total_received.
  repeat constructor. exact tx_a1_Constructed.
Defined.

Lemma total_received_monotone_witness :
  exists u',
    users (fst (run_calls toy_H toy_vrf
                  [CallProcessPayment tx_a1 sig_hit sig_hit; CallDeposit alice 1]
                  bank_a9)) !! alice = Some u'
    /\ 9 <= total_received u'.
Proof.
  apply (total_received_monotone toy_H toy_vrf _ bank_a9 alice
           {| total_received := 9; balance := 9; history := [] |}).
  - repeat constructor. exact tx_a1_Constructed.
  - repeat constructor; cbn; lia.
  - vm_compute. reflexivity.
Defined.

Lemma stored_checks_within_total_received_witness :
  every_user (fun u =>
                Forall (fun t => sn t <= total_received u) (history_txs (history u))
                /\ foldr Z.add 0 (map amount (history_txs (history u)))
                   <= total_received u)
    (ledger_after toy_H toy_vrf
       [CallDeposit alice 15; CallProcessPayment tx_a1 sig_hit sig_hit]).
Proof.
  apply stored_checks_within_total_received.
  - repeat constructor. exact tx_a1_Constructed.
  - repeat constructor; cbn; lia.
Defined.


Lemma constructed_eq_iff_same_arguments_witness :
  tx_eq tx_a1 tx_a1 = true
  <-> 1 = 1 /\ 1 = 1 /\ alice = alice /\ bob = bob /\ 1700009006 = 1700009006.
Proof.
  apply (constructed_eq_iff_same_arguments 1 1 alice bob 1700009006
           1 1 alice bob 1700009006); reflexivity.
Defined.

Lemma process_payment_moves_paid_witness :
  exists paid,
    evaluate toy_H toy_vrf tx_a1 sig_hit sig_hit = Ok paid /\ paid <> 0
    /\ forall k, exists before,
         snd (user_balance k (fst (deposit alice 15 Bank_init))) = Ok before
         /\ snd (user_balance k bank_a1)
            = Ok (before - (if decide (k = sender_key tx_a1) then paid else 0)
                         + (if decide (k = receiver_key tx_a1) then paid else 0)).
Proof.
  apply (process_payment_moves_paid toy_H toy_vrf tx_a1 sig_hit sig_hit
           (fst (deposit alice 15 Bank_init)) bank_a1 true).
  vm_compute. reflexivity.
Defined.

Lemma process_payment_replay_witness :
  process_payment toy_H toy_vrf tx_a1 sig_hit sig_hit bank_a1
  = (bank_a1, Raise ErrAlreadyProcessed).
Proof.
  apply (process_payment_replay toy_H toy_vrf tx_a1 sig_hit sig_hit
           (fst (deposit alice 15 Bank_init)) bank_a1 true sig_hit sig_hit 10).
  - cbn. lia.
  - vm_compute. reflexivity.
  - vm_compute. reflexivity.
  - lia.
Defined.

Lemma overlap_errors_in_built_ledger_witness :
  snd (process_payment toy_H toy_vrf tx_a3 sig_hit sig_hit
         (ledger_after toy_H toy_vrf
            [CallDeposit alice 15; CallProcessPayment tx_a1 sig_hit sig_hit]))
  = Raise ErrDoubleSpend.
Proof.
  apply (overlap_errors_in_built_ledger toy_H toy_vrf
           [CallDeposit alice 15; CallProcessPayment tx_a1 sig_hit sig_hit]
           tx_a3 sig_hit sig_hit).
  - repeat constructor. exact tx_a1_Constructed.
  - exact tx_a3_Constructed.
  - split.
    + exists 10. split; [vm_compute; reflexivity | lia].
    + exists {| total_received := 15; balance := 5;
                history := [(1, (tx_a1, sig_hit, sig_hit))] |}.
      split; [vm_compute; reflexivity |]. split.
      * cbn. intros [Heq | []]. discriminate Heq.
      * exists tx_a1. split; [left; reflexivity |].
        exists 1. unfold in_interval. cbn. lia.
Defined.

Lemma double_spend_caught_is_reportable_witness :
  exists (u : UserRecord) (t : Transaction) (sender_sig_t receiver_sig_t : string),
    users (ledger_after toy_H toy_vrf
             [CallDeposit alice 15; CallProcessPayment tx_a1 sig_hit sig_hit])
      !! sender_key tx_a3 = Some u
    /\ In (sn t, (t, sender_sig_t, receiver_sig_t)) (history u)
    /\ snd (report_double_spend toy_H toy_vrf tx_a3 sig_hit sig_hit
              t sender_sig_t receiver_sig_t
              (ledger_after toy_H toy_vrf
                 [CallDeposit alice 15; CallProcessPayment tx_a1 sig_hit sig_hit]))
       = Raise ErrDoubleSpend.
Proof.
  apply double_spend_caught_is_reportable. vm_compute. reflexivity.
Defined.


Lemma process_payment_accepts_iff_witness :
  snd (process_payment toy_H toy_vrf tx_a1 sig_hit sig_hit
         (ledger_after toy_H toy_vrf [CallDeposit alice 15]))
  = Ok true.
Proof.
  apply (process_payment_accepts_iff toy_H toy_vrf [CallDeposit alice 15]
           tx_a1 sig_hit sig_hit).
  - repeat constructor.
  - exact tx_a1_Constructed.
  - exists 10, {| total_received := 15; balance := 15; history := [] |}.
    split; [vm_compute; reflexivity |]. split; [lia |].
    split; [vm_compute; reflexivity |]. split; [intros t [] |].
    cbn. lia.
Defined.

Lemma Wallet_pay_issues_witness :
  exists T : Transaction,
    interval_lo T = Wallet.sn wallet_alice + 1
    /\ interval_hi T = 1
    /\ Constructed T.
Proof.
  destruct (Wallet_pay toy_H (keys := toy_keys) 7 zed 1 None wallet_alice)
    as [self' [[T sender_sig] | e]] eqn:Hpay.
  - exists T.
    destruct (Wallet_pay_issues toy_H 7 zed 1 None wallet_alice self' T sender_sig Hpay)
      as (_ & _ & _ & Hlo & Hhi & Hcons & _ & ->).
    split; [exact Hlo |]. split; [exact Hhi | exact Hcons].
  - vm_compute in Hpay. discriminate.
Defined.

Lemma honest_payment_outcome_witness :
  exists paid,
    evaluate toy_H toy_vrf
      {| sn := 1; amount := 1; sender_key := alice; receiver_key := zed;
         timestamp := "7" |}
      (String (byte 170) EmptyString) (String (byte 0) EmptyString) = Ok paid
    /\ snd (process_payment toy_H toy_vrf
              {| sn := 1; amount := 1; sender_key := alice; receiver_key := zed;
                 timestamp := "7" |}
              (String (byte 170) EmptyString) (String (byte 0) EmptyString)
              (fst (deposit alice 15 Bank_init)))
       = if paid =? 0 then Raise ErrNotPayable
         else if 15 <? paid then Raise ErrNotEnoughFunds
         else Ok true.
Proof.
  apply (honest_payment_outcome toy_H toy_vrf (keys := toy_keys) 7 15 1 zed None
           wallet_alice
           {| Wallet.total_received := 0; Wallet.sn := 1;
              Wallet.priv_key := String (byte 170) EmptyString; Wallet.amount := 14 |}
           wallet_zed
           {| sn := 1; amount := 1; sender_key := alice; receiver_key := zed;
              timestamp := "7" |}
           {| sn := 1; amount := 1; sender_key := alice; receiver_key := zed;
              timestamp := "7" |}).
  - cbn. lia.
  - vm_compute. reflexivity.
  - vm_compute. reflexivity.
  - apply toy_vrf_complete.
Defined.

Lemma spent_is_what_stored_checks_paid_witness :
  every_user (fun u => total_received u - balance u = spent toy_H toy_vrf u)
    (ledger_after toy_H toy_vrf
       [CallDeposit alice 15; CallProcessPayment tx_a1 sig_hit sig_hit]).
Proof.
  apply spent_is_what_stored_checks_paid.
  repeat constructor. exact tx_a1_Constructed.
Defined.

Lemma msg_text_binds_fields_witness :
  msg_text tx_a1 = msg_text tx_a2
  <-> sn tx_a1 = sn tx_a2 /\ amount tx_a1 = amount tx_a2
      /\ receiver_key tx_a1 = receiver_key tx_a2
      /\ timestamp tx_a1 = timestamp tx_a2.
Proof.
  apply msg_text_binds_fields; [exact tx_a1_Constructed | exact tx_a2_Constructed].
Defined.
